(** * The Authenticator of the Gitpod server: login, authorize and
      deauthorize gates, scope negotiation and JWT key resolution.

    Shallow embedding of the TypeScript class [Authenticator] (second
    document of [TokenServiceClient.kt], lines 56-395).

    Conventions of the embedding.
    - A JavaScript string is a [string]: a sequence of code units, here
      restricted to the 8-bit range.  Comparison is by code unit, as the
      default comparator of [Array.prototype.sort] does.
    - A value that may be [undefined] is an [option].
    - A handler run is the list of the calls it makes on its collaborators
      (logger, registry, stores, response, provider strategy), in order. *)

From Stdlib Require Import Ascii.
From stdpp Require Import base decidable option list sorting strings gmap.

Local Open Scope string_scope.
Local Open Scope list_scope.

(** ** JavaScript strings *)

Module JS.

(** Truthiness of a string: only the empty string is falsy. *)
Definition truthy (s : string) : bool :=
  match s with
  | EmptyString => false
  | String _ _ => true
  end.

(** Truthiness of [string | undefined]. *)
Definition truthy_opt (o : option string) : bool :=
  match o with
  | Some s => truthy s
  | None => false
  end.

(** [x || d] on [string | undefined]. *)
Definition or_else (o : option string) (d : string) : string :=
  match o with
  | Some s => if truthy s then s else d
  | None => d
  end.

(** [String.prototype.split(",")]: one piece more than there are commas. *)
Fixpoint split_comma (s : string) : list string :=
  match s with
  | EmptyString => [EmptyString]
  | String c s' =>
      match split_comma s' with
      | [] => [String c EmptyString]
      | p :: ps =>
          if Ascii.eqb c ","%char then EmptyString :: p :: ps
          else String c p :: ps
      end
  end.

(** White space and line terminators in the 8-bit range:
    TAB, LF, VT, FF, CR, SP and NBSP. *)
Definition is_white (c : ascii) : bool :=
  match Ascii.N_of_ascii c with
  | 9%N | 10%N | 11%N | 12%N | 13%N | 32%N | 160%N => true
  | _ => false
  end.

Fixpoint trimStart (s : string) : string :=
  match s with
  | EmptyString => EmptyString
  | String c s' => if is_white c then trimStart s' else s
  end.

Fixpoint trimEnd (s : string) : string :=
  match s with
  | EmptyString => EmptyString
  | String c s' =>
      match trimEnd s' with
      | EmptyString => if is_white c then EmptyString else String c EmptyString
      | t => String c t
      end
  end.

(** [String.prototype.trim]. *)
Definition trim (s : string) : string := trimEnd (trimStart s).

(** [Array.prototype.join(",")]. *)
Fixpoint join_comma (l : list string) : string :=
  match l with
  | [] => EmptyString
  | [s] => s
  | s :: l' => s +:+ "," +:+ join_comma l'
  end.

(** The order of the default sort comparator: [x] comes before [y]
    unless [y < x] as code-unit sequences. *)
Definition str_le (x y : string) : Prop := String.leb x y = true.

#[global] Instance str_le_dec (x y : string) : Decision (str_le x y).
Proof. unfold str_le. apply _. Defined.

(** [Array.prototype.sort()] without comparator, on an array of strings. *)
Definition sort (l : list string) : list string := merge_sort str_le l.

(** A [Set] of strings, as the sequence of its members in insertion
    order; this is the order [Array.from] and [forEach] observe. *)
Definition set_add (s : list string) (x : string) : list string :=
  if decide (x ∈ s) then s else s ++ [x].

(** [new Set(a)]. *)
Definition new_Set (a : list string) : list string := foldl set_add [] a.

End JS.

(** ** Scope merging (source lines 365-369) *)

(** [mergeScopes(a, b)]: a set seeded with [a], every member of [b]
    added, read back as an array and sorted. *)
Definition mergeScopes (a b : list string) : list string :=
  let set := JS.new_Set a in
  let set := foldl JS.set_add set b in
  JS.sort set.

(** The first statements of the scope computation of [authorize]
    (lines 339-342): split on commas, trim, drop the empty entries. *)
Definition parseScopes (scopes : string) : list string :=
  filter (fun s => 0 < String.length s)%nat (JS.trim <$> JS.split_comma scopes).

(** ** Data model

    The protocol types are declared outside the sources at hand; the
    records below keep the fields the class reads, optional where the
    class tests them for presence. *)

Record User := { user_id : string }.

Record Requirements := { requirements_default : list string }.

Record AuthProviderInfo := {
  info_host : string;
  verified : bool;
  organizationId : option string;
  ownerId : option string;
  requirements : option Requirements
}.

Record AuthProviderParams := { params_host : string; builtin : bool }.

Record AuthProvider := {
  authProviderId : string;
  info : AuthProviderInfo;
  params : AuthProviderParams;
  authCallbackPath : string
}.

Record HostContext := { authProvider : AuthProvider }.

Record TeamMemberInfo := { role : string }.

Record Token := { scopes : list string }.

(** The record [AuthFlow.attach] stores; [overrideScopes] is left out by
    the login flow. *)
Record AuthFlow := {
  flow_host : string;
  flow_returnTo : string;
  overrideScopes : option bool
}.

Record Session := { authFlow : option AuthFlow }.

(** A thrown value: a falsy one, or an object with an optional [message]. *)
Inductive Thrown :=
| thrown_falsy
| thrown_object (message : option string).

Record KeyPair := { keypair_id : string; publicKey : string }.

Record JwtHeader := { kid : option string }.

(** The query parameters, each after [?.toString()]; [q_override] is the
    raw parameter when it is a string. *)
Record Query := {
  q_returnTo : option string;
  q_host : option string;
  q_scopes : option string;
  q_override : option string
}.

Record Request := {
  isAuthenticated : bool;
  user : option User;
  session : option Session;
  query : Query
}.

(** *** Configuration and injected collaborators *)

Record GitpodHostUrl := { asDashboard : string; asSorry : string -> string }.

Record PKI := { signing : KeyPair; validating : list KeyPair }.

Record Config := {
  hostUrl : GitpodHostUrl;
  disableDynamicAuthProviderLogin : bool;
  auth_pki : PKI
}.

Record HostContextProvider := {
  hcp_get : string -> option HostContext;
  hcp_getAll : list HostContext
}.

Record UserDB := { getUserCount : N }.

Record TeamDB := { findTeamMembership : string -> string -> option TeamMemberInfo }.

(** [getTokenForHost] throws when there is no token: [None]. *)
Record TokenProvider := { getTokenForHost : User -> string -> option Token }.

(** [UserService.deauthorize] resolves ([None]) or throws. *)
Record UserService := { us_deauthorize : User -> string -> option Thrown }.

Record Authenticator := {
  config : Config;
  userDb : UserDB;
  teamDb : TeamDB;
  hostContextProvider : HostContextProvider;
  tokenProvider : TokenProvider;
  userService : UserService
}.

(** ** Calls on collaborators, and the handler monad *)

Inductive Level := Info | Warn | Error.

Inductive Event :=
| ev_log (l : Level) (msg : string)
| ev_hostContextProvider_get (host : string)
| ev_hostContextProvider_getAll
| ev_getUserCount
| ev_findTeamMembership (userId orgId : string)
| ev_getTokenForHost (u : User) (host : string)
| ev_deauthorize (u : User) (providerId : string)
| ev_increaseLoginCounter (status host : string)
| ev_AuthFlow_attach (s : Session) (f : AuthFlow)
| ev_redirect (url : string)
| ev_next (err : option Thrown)
| ev_authProvider_authorize (ap : AuthProvider) (wantedScopes : option (list string)).

(** A computation that records the calls it makes and yields a value. *)
Definition Eff (A : Type) : Type := (list Event * A)%type.

Definition ret {A} (a : A) : Eff A := ([], a).

Definition bind {A B} (m : Eff A) (k : A -> Eff B) : Eff B :=
  (m.1 ++ (k m.2).1, (k m.2).2).

(** A call on a collaborator: the call is recorded, its answer returned. *)
Definition call {A} (e : Event) (answer : A) : Eff A := ([e], answer).

Definition emit (e : Event) : Eff unit := call e tt.

Definition trace {A} (m : Eff A) : list Event := m.1.

Definition result {A} (m : Eff A) : A := m.2.

Notation "'do' x <- m ;; k" := (bind m (fun x => k))
  (at level 10, x name, m at level 99, k at level 200).

Definition log (l : Level) (msg : string) : Eff unit := emit (ev_log l msg).

Definition redirect (url : string) : Eff unit := emit (ev_redirect url).

(** The double quote character of the message templates. *)
Definition dquote : string := String "034"%char EmptyString.

(** ** The class [Authenticator] *)

(** [getSorryUrl] (lines 381-383). *)
Definition getSorryUrl (self : Authenticator) (message : string) : string :=
  asSorry (hostUrl (config self)) message.

(** [getAuthProviderForHost] (lines 168-171). *)
Definition getAuthProviderForHost (self : Authenticator) (host : string)
  : Eff (option AuthProvider) :=
  do hostContext <- call (ev_hostContextProvider_get host)
                         (hcp_get (hostContextProvider self) host) ;;
  ret (authProvider <$> hostContext).

(** [host && (await this.getAuthProviderForHost(host))]: no lookup for a
    falsy host. *)
Definition lookupProvider (self : Authenticator) (host : string)
  : Eff (option AuthProvider) :=
  if JS.truthy host then getAuthProviderForHost self host else ret None.

(** [isInSetupMode] (lines 232-241). *)
Definition isInSetupMode (self : Authenticator) : Eff bool :=
  do all <- call ev_hostContextProvider_getAll
                 (hcp_getAll (hostContextProvider self)) ;;
  let hasAnyStaticProviders :=
    existsb (fun hc => builtin (params (authProvider hc))) all in
  if hasAnyStaticProviders then ret false
  else
    do count <- call ev_getUserCount (getUserCount (userDb self)) ;;
    let noUser := N.eqb count 0 in
    ret noUser.

Definition notPermitted (what host : string) : string :=
  what +:+ " with " +:+ dquote +:+ host +:+ dquote +:+ " is not permitted.".

(** [authenticate] (lines 173-231). *)
Definition authenticate (self : Authenticator) (req : Request) : Eff unit :=
  if isAuthenticated req then
    do _ <- log Info "User is already authenticated. Continue." ;;
    emit (ev_next None)
  else
    let returnTo := q_returnTo (query req) in
    do _ <- (match returnTo with
             | Some r =>
                 if JS.truthy r then log Info ("Stored returnTo URL: " +:+ r)
                 else ret tt
             | None => ret tt
             end) ;;
    let workspaceUrl := asDashboard (hostUrl (config self)) in
    let returnTo := JS.or_else returnTo workspaceUrl in
    let host := JS.or_else (q_host (query req)) EmptyString in
    do authProvider <- lookupProvider self host ;;
    match authProvider with
    | None =>
        do _ <- log Info "Bad request: missing parameters." ;;
        redirect (getSorryUrl self "Bad request: missing parameters.")
    | Some authProvider =>
        if JS.truthy_opt (organizationId (info authProvider)) then
          do _ <- log Info (notPermitted "Login" host) ;;
          redirect (getSorryUrl self (notPermitted "Login" host))
        else if disableDynamicAuthProviderLogin (config self)
                && negb (builtin (params authProvider)) then
          do _ <- log Info "Auth Provider is not allowed." ;;
          redirect (getSorryUrl self
            ("Login with " +:+ params_host (params authProvider)
             +:+ " is not allowed."))
        else
          match session req with
          | None =>
              do _ <- emit (ev_increaseLoginCounter "failed_client"
                              (info_host (info authProvider))) ;;
              do _ <- log Info "No session." ;;
              redirect (getSorryUrl self
                "No session found. Please refresh the browser.")
          | Some session =>
              do untrusted <- (if verified (info authProvider) then ret false
                               else
                                 do setup <- isInSetupMode self ;;
                                 ret (negb setup)) ;;
              if untrusted then
                do _ <- emit (ev_increaseLoginCounter "failed"
                                (info_host (info authProvider))) ;;
                do _ <- log Info (notPermitted "Login" host) ;;
                redirect (getSorryUrl self (notPermitted "Login" host))
              else
                do _ <- emit (ev_AuthFlow_attach session
                                {| flow_host := host;
                                   flow_returnTo := returnTo;
                                   overrideScopes := None |}) ;;
                emit (ev_authProvider_authorize authProvider None)
          end
    end.

(** The guard [!req.isAuthenticated() || !User.is(user)] fails exactly
    when this is [None]; otherwise it is [req.user]. *)
Definition authenticatedUser (req : Request) : option User :=
  if isAuthenticated req then user req else None.

(** The message of a caught error:
    [error && error.message ? error.message : "unknown reason"]. *)
Definition reasonOf (error : Thrown) : string :=
  match error with
  | thrown_object (Some m) => if JS.truthy m then m else "unknown reason"
  | _ => "unknown reason"
  end.

(** [deauthorize] (lines 243-276). *)
Definition deauthorize (self : Authenticator) (req : Request) : Eff unit :=
  match authenticatedUser req with
  | None =>
      do _ <- log Info "User is not authenticated." ;;
      redirect (getSorryUrl self "Not authenticated. Please login.")
  | Some user =>
      let returnTo :=
        JS.or_else (q_returnTo (query req)) (asDashboard (hostUrl (config self))) in
      let host := JS.or_else (q_host (query req)) EmptyString in
      do authProvider <- lookupProvider self host ;;
      match authProvider with
      | None =>
          do _ <- log Warn "Bad request: missing parameters." ;;
          redirect (getSorryUrl self "Bad request: missing parameters.")
      | Some authProvider =>
          do outcome <- call (ev_deauthorize user (authProviderId authProvider))
                             (us_deauthorize (userService self) user
                                (authProviderId authProvider)) ;;
          match outcome with
          | None => redirect returnTo
          | Some error =>
              do _ <- emit (ev_next (Some error)) ;;
              do _ <- log Error "Failed to disconnect a provider." ;;
              redirect (getSorryUrl self
                ("Failed to disconnect a provider: " +:+ reasonOf error))
          end
      end
  end.

(** [getCurrentScopes] (lines 370-380). *)
Definition getCurrentScopes (self : Authenticator) (user : option User)
    (authProvider : AuthProvider) : Eff (list string) :=
  match user with
  | Some u =>
      do token <- call (ev_getTokenForHost u (params_host (params authProvider)))
                       (getTokenForHost (tokenProvider self) u
                          (params_host (params authProvider))) ;;
      match token with
      | Some token => ret (scopes token)
      | None => ret []
      end
  | None => ret []
  end.

(** [info.organizationId] when it is truthy. *)
Definition boundOrganization (i : AuthProviderInfo) : option string :=
  match organizationId i with
  | Some org => if JS.truthy org then Some org else None
  | None => None
  end.

(** [member?.role !== "owner"]. *)
Definition notOwner (member : option TeamMemberInfo) : bool :=
  match member with
  | Some m => negb (String.eqb (role m) "owner")
  | None => true
  end.

(** [user.id !== authProvider.info.ownerId]. *)
Definition notProviderOwner (u : User) (i : AuthProviderInfo) : bool :=
  match ownerId i with
  | Some o => negb (String.eqb (user_id u) o)
  | None => true
  end.

(** Lines 339-357 of [authorize]: the scopes handed to the provider. *)
Definition computeWantedScopes (self : Authenticator) (req : Request)
    (authProvider : AuthProvider) (scopes : string) (override : bool)
  : Eff (list string) :=
  let wantedScopes := parseScopes scopes in
  let wantedScopes :=
    if (length wantedScopes =? 0)%nat then
      match requirements (info authProvider) with
      | Some r => requirements_default r
      | None => wantedScopes
      end
    else wantedScopes in
  if negb override then
    do currentScopes <- getCurrentScopes self (user req) authProvider ;;
    let wantedScopes := mergeScopes currentScopes wantedScopes in
    match requirements (info authProvider) with
    | Some r =>
        if (length currentScopes =? 0)%nat
        then ret (mergeScopes (requirements_default r) wantedScopes)
        else ret wantedScopes
    | None => ret wantedScopes
    end
  else ret wantedScopes.

(** [authorize] (lines 278-364). *)
Definition authorize (self : Authenticator) (req : Request) : Eff unit :=
  match session req with
  | None =>
      do _ <- log Info "No session." ;;
      redirect (getSorryUrl self "No session found. Please refresh the browser.")
  | Some session =>
  match authenticatedUser req with
  | None =>
      do _ <- log Info "User is not authenticated." ;;
      redirect (getSorryUrl self "Not authenticated. Please login.")
  | Some user =>
  let returnTo := JS.or_else (q_returnTo (query req)) EmptyString in
  let host := JS.or_else (q_host (query req)) EmptyString in
  let scopes := JS.or_else (q_scopes (query req)) EmptyString in
  let override := bool_decide (q_override (query req) = Some "true") in
  do authProvider <- lookupProvider self host ;;
  let badRequest :=
    do _ <- log Info "Bad request: missing parameters." ;;
    redirect (getSorryUrl self "Bad request: missing parameters.") in
  let deny :=
    do _ <- log Info (notPermitted "Authorization" host) ;;
    redirect (getSorryUrl self (notPermitted "Authorization" host)) in
  (* [!returnTo || !host || !authProvider]: a falsy host has no provider *)
  match authProvider with
  | None => badRequest
  | Some authProvider =>
  if negb (JS.truthy returnTo) then badRequest else
  let i := info authProvider in
  do denied <- (if verified i then ret false else
                match boundOrganization i with
                | Some org =>
                    do member <- call (ev_findTeamMembership (user_id user) org)
                                      (findTeamMembership (teamDb self)
                                         (user_id user) org) ;;
                    ret (notOwner member)
                | None => ret false
                end) ;;
  if denied then deny else
  if negb (verified i) && negb (JS.truthy_opt (organizationId i))
     && notProviderOwner user i then deny else
  do denied <- (match boundOrganization i with
                | Some org =>
                    do member <- call (ev_findTeamMembership (user_id user) org)
                                      (findTeamMembership (teamDb self)
                                         (user_id user) org) ;;
                    ret (match member with None => true | Some _ => false end)
                | None => ret false
                end) ;;
  if denied then deny else
  do _ <- emit (ev_AuthFlow_attach session
                  {| flow_host := host;
                     flow_returnTo := returnTo;
                     overrideScopes := Some override |}) ;;
  do wantedScopes <- computeWantedScopes self req authProvider scopes override ;;
  do _ <- log Info ("(doAuthorize) wanted scopes ("
                    +:+ (if override then "overriding" else "merging")
                    +:+ "): " +:+ JS.join_comma wantedScopes) ;;
  emit (ev_authProvider_authorize authProvider (Some wantedScopes))
  end end end.

(** ** Key resolution for token verification (lines 80-101) *)

(** A plain object used as a dictionary from key id to public key.  Its
    own properties are a finite map; a read that finds no own property
    falls through to [Object.prototype]. *)
Module JSObject.

(** What a property read yields. *)
Inductive Value :=
| undefined
| str (s : string)
| inherited (name : string).

(** The property names of [Object.prototype]. *)
Definition prototype_names : list string :=
  [ "constructor"; "hasOwnProperty"; "isPrototypeOf"; "propertyIsEnumerable";
    "toLocaleString"; "toString"; "valueOf"; "__proto__";
    "__defineGetter__"; "__defineSetter__";
    "__lookupGetter__"; "__lookupSetter__" ].

(** [o[k]]. *)
Definition get (o : gmap string string) (k : string) : Value :=
  match o !! k with
  | Some v => str v
  | None => if bool_decide (k ∈ prototype_names) then inherited k else undefined
  end.

(** [o[k] = v] for a string [v]: the [__proto__] setter ignores a value
    that is not an object; any other name becomes an own property. *)
Definition set (o : gmap string string) (k v : string) : gmap string string :=
  if bool_decide (k = "__proto__") then o else <[k := v]> o.

Definition truthy (v : Value) : bool :=
  match v with
  | undefined => false
  | str s => JS.truthy s
  | inherited _ => true
  end.

End JSObject.

(** What the key provider does with a token: it throws, or it calls
    [done] with a value. *)
Inductive KeyOutcome :=
| throws (message : string)
| done (key : JSObject.Value).

(** [publicKeysByID]: the [reduce] over the signing key followed by the
    validating keys. *)
Definition publicKeysByID (self : Authenticator) : gmap string string :=
  let keypairs :=
    signing (auth_pki (config self)) :: validating (auth_pki (config self)) in
  foldl (fun byID keypair =>
           JSObject.set byID (keypair_id keypair) (publicKey keypair))
        ∅ keypairs.

(** [secretOrKeyProvider].  [decodeWithoutVerification] belongs to the
    module [./jwt], which is not among the sources at hand: it is a
    parameter, yielding the decoded header or the message of the error it
    throws. *)
Definition secretOrKeyProvider
    (decodeWithoutVerification : string -> string + JwtHeader)
    (self : Authenticator) (rawJWT : string) : KeyOutcome :=
  let publicKeysByID := publicKeysByID self in
  match decodeWithoutVerification rawJWT with
  | inl message => throws message
  | inr header =>
      let keyID := kid header in
      if negb (JS.truthy_opt keyID) then
        throws "JWT token does not contain kid (key id) property."
      else
        let key := JSObject.get publicKeysByID (default EmptyString keyID) in
        if negb (JSObject.truthy key) then
          throws "JWT was signed with an unknown key id"
        else done key
  end.

(** ** Observations on a handler run *)

(** The calls that act on the response, the session, the provider
    strategy or the deauthorize collaborator; log lines, counters and
    store reads are left out. *)
Definition isAction (e : Event) : bool :=
  match e with
  | ev_redirect _ | ev_next _ | ev_AuthFlow_attach _ _
  | ev_authProvider_authorize _ _ | ev_deauthorize _ _ => true
  | _ => false
  end.

Definition actions (t : list Event) : list Event :=
  List.filter isAction t.

(** The membership lookups of a run. *)
Definition isMembershipLookup (e : Event) : bool :=
  match e with
  | ev_findTeamMembership _ _ => true
  | _ => false
  end.

Definition membershipLookups (t : list Event) : nat :=
  length (List.filter isMembershipLookup t).

(** The token lookups of a run. *)
Definition isTokenLookup (e : Event) : bool :=
  match e with
  | ev_getTokenForHost _ _ => true
  | _ => false
  end.

(** The default scopes of a provider; none when it states no requirements. *)
Definition defaultsOf (authProvider : AuthProvider) : list string :=
  match requirements (info authProvider) with
  | Some r => requirements_default r
  | None => []
  end.

(** The scopes of the identity's token for the provider, as
    [getCurrentScopes] would read them. *)
Definition currentOf (self : Authenticator) (req : Request)
    (authProvider : AuthProvider) : list string :=
  result (getCurrentScopes self (user req) authProvider).

(** ** The specification's words

    The definitions of this module follow the design document, not the
    source; the theorems compare them with the class. *)
Module Spec.

(** "dedupe(sort(l))", lexicographic on the scope name. *)
Definition dedupe_sort (l : list string) : list string :=
  remove_dups (JS.sort l).

(** ScopeNegotiator, as the document states it. *)
Definition negotiate (requested current defaults : list string)
    (override : bool) : list string :=
  let requested :=
    match requested with
    | [] => defaults
    | _ => requested
    end in
  if override then dedupe_sort requested
  else
    match current with
    | [] => dedupe_sort (current ++ requested ++ defaults)
    | _ => dedupe_sort (current ++ requested)
    end.

(** A provider is organization-bound when it carries an organization id. *)
Definition organizationBound (i : AuthProviderInfo) : bool :=
  JS.truthy_opt (organizationId i).

(** "zero builtin providers are registered". *)
Definition builtinCount (self : Authenticator) : nat :=
  length (List.filter (fun hc => builtin (params (authProvider hc)))
            (hcp_getAll (hostContextProvider self))).

(** "Setup mode = true iff zero builtin providers are configured AND the
    user store reports zero users". *)
Definition setupMode (self : Authenticator) : bool :=
  (builtinCount self =? 0)%nat && N.eqb (getUserCount (userDb self)) 0.

(** The non-empty [host] parameter and the provider it resolves to. *)
Definition resolve (self : Authenticator) (req : Request)
  : option (string * AuthProvider) :=
  match q_host (query req) with
  | Some host =>
      if JS.truthy host then
        match hcp_get (hostContextProvider self) host with
        | Some hc => Some (host, authProvider hc)
        | None => None
        end
      else None
  | None => None
  end.

(** The five checks of the login gate. *)
Inductive LoginCheck :=
| ValidateParams
| RejectOrgProvider
| RejectDisallowedDynamicProvider
| RequireSession
| RequireTrustOrSetup.

(** The checks that follow [ValidateParams], in order, each with whether
    it passes. *)
Definition loginChecks (self : Authenticator) (req : Request)
    (authProvider : AuthProvider) : list (LoginCheck * bool) :=
  [ (RejectOrgProvider, negb (organizationBound (info authProvider)));
    (RejectDisallowedDynamicProvider,
      builtin (params authProvider)
      || negb (disableDynamicAuthProviderLogin (config self)));
    (RequireSession,
      match session req with Some _ => true | None => false end);
    (RequireTrustOrSetup,
      verified (info authProvider) || setupMode self) ].

(** The first check that fails, if any. *)
Definition firstFailure {A} (checks : list (A * bool)) : option A :=
  fst <$> List.find (fun c => negb (snd c)) checks.

Definition loginFailure (self : Authenticator) (req : Request)
  : option LoginCheck :=
  match resolve self req with
  | None => Some ValidateParams
  | Some (_, authProvider) => firstFailure (loginChecks self req authProvider)
  end.

(** The three policy checks of the authorization gate. *)
Inductive PolicyCheck :=
| OwnerOfOrganization
| OwnerOfProvider
| MemberOfOrganization.

(** The caller's membership in the provider's organization. *)
Definition membership (self : Authenticator) (u : User)
    (i : AuthProviderInfo) : option TeamMemberInfo :=
  match organizationId i with
  | Some org => findTeamMembership (teamDb self) (user_id u) org
  | None => None
  end.

Definition policyChecks (self : Authenticator) (u : User)
    (i : AuthProviderInfo) : list (PolicyCheck * bool) :=
  [ (OwnerOfOrganization,
      negb (negb (verified i) && organizationBound i)
      || match membership self u i with
         | Some m => String.eqb (role m) "owner"
         | None => false
         end);
    (OwnerOfProvider,
      negb (negb (verified i) && negb (organizationBound i))
      || bool_decide (ownerId i = Some (user_id u)));
    (MemberOfOrganization,
      negb (organizationBound i)
      || match membership self u i with Some _ => true | None => false end) ].

Definition policyFailure (self : Authenticator) (u : User)
    (i : AuthProviderInfo) : option PolicyCheck :=
  firstFailure (policyChecks self u i).

(** The preconditions of the authorization gate: "active session exists;
    current identity is authenticated; [host], [returnTo] query
    parameters present and a ProviderInfo resolves for [host]". *)
Definition authorizePreconditions (self : Authenticator) (req : Request)
  : option (Session * User * string * string * AuthProvider) :=
  match session req, authenticatedUser req, resolve self req,
        q_returnTo (query req) with
  | Some s, Some u, Some (host, authProvider), Some returnTo =>
      if JS.truthy returnTo then Some (s, u, host, returnTo, authProvider)
      else None
  | _, _, _, _ => None
  end.

End Spec.

(** ** Variations of a request or an installation *)


(** The installation with one more provider registered. *)
Definition registerProvider (hc : HostContext) (self : Authenticator)
  : Authenticator :=
  {| config := config self;
     userDb := userDb self;
     teamDb := teamDb self;
     hostContextProvider :=
       {| hcp_get := hcp_get (hostContextProvider self);
          hcp_getAll := hc :: hcp_getAll (hostContextProvider self) |};
     tokenProvider := tokenProvider self;
     userService := userService self |}.

(** The installation with one more user stored. *)
Definition addUser (self : Authenticator) : Authenticator :=
  {| config := config self;
     userDb := {| getUserCount := N.succ (getUserCount (userDb self)) |};
     teamDb := teamDb self;
     hostContextProvider := hostContextProvider self;
     tokenProvider := tokenProvider self;
     userService := userService self |}.

(** The message of the denial page for each check of the login gate. *)
Definition loginDenial (self : Authenticator) (req : Request)
    (c : Spec.LoginCheck) : string :=
  let host := JS.or_else (q_host (query req)) EmptyString in
  match c with
  | Spec.ValidateParams => "Bad request: missing parameters."
  | Spec.RejectOrgProvider | Spec.RequireTrustOrSetup =>
      notPermitted "Login" host
  | Spec.RejectDisallowedDynamicProvider =>
      "Login with "
      +:+ match Spec.resolve self req with
          | Some (_, authProvider) => params_host (params authProvider)
          | None => EmptyString
          end
      +:+ " is not allowed."
  | Spec.RequireSession => "No session found. Please refresh the browser."
  end.

(** The key ids of the key ring: the signing key and the validating keys. *)
Definition keyRingIds (self : Authenticator) : list string :=
  keypair_id <$>
    (signing (auth_pki (config self)) :: validating (auth_pki (config self))).

(** ** Sample installations and requests *)

Module Sample.

Definition github : AuthProvider :=
  {| authProviderId := "Public-GitHub";
     info := {| info_host := "github.com"; verified := true;
                organizationId := None; ownerId := None;
                requirements :=
                  Some {| requirements_default := ["user"; "email"] |} |};
     params := {| params_host := "github.com"; builtin := true |};
     authCallbackPath := "/auth/github/callback" |}.

(** A self-hosted provider an organization added, not yet verified. *)
Definition gitlab : AuthProvider :=
  {| authProviderId := "org-gitlab";
     info := {| info_host := "gitlab.example"; verified := false;
                organizationId := Some "org1"; ownerId := Some "alice";
                requirements := None |};
     params := {| params_host := "gitlab.example"; builtin := false |};
     authCallbackPath := "/auth/gitlab.example/callback" |}.

(** A provider a user added for themselves, not yet verified. *)
Definition gitea : AuthProvider :=
  {| authProviderId := "bob-gitea";
     info := {| info_host := "gitea.example"; verified := false;
                organizationId := None; ownerId := Some "bob";
                requirements := None |};
     params := {| params_host := "gitea.example"; builtin := false |};
     authCallbackPath := "/auth/gitea.example/callback" |}.

Definition providers : list AuthProvider := [github; gitlab; gitea].

Definition registry (l : list AuthProvider) : HostContextProvider :=
  {| hcp_get := fun host =>
       (fun ap => {| authProvider := ap |}) <$>
         List.find (fun ap => String.eqb (info_host (info ap)) host) l;
     hcp_getAll := (fun ap => {| authProvider := ap |}) <$> l |}.

Definition urls : GitpodHostUrl :=
  {| asDashboard := "https://gitpod.example/workspaces";
     asSorry := fun message => "https://gitpod.example/sorry#" +:+ message |}.

Definition keys : PKI :=
  {| signing := {| keypair_id := "k2"; publicKey := "PUBLIC KEY 2" |};
     validating := [ {| keypair_id := "k1"; publicKey := "PUBLIC KEY 1" |} ] |}.

(** An installation: its providers, user count, the scopes of the one
    stored token (none when [None]) and whether deauthorizing fails. *)
Definition installation (l : list AuthProvider) (users : N)
    (token : option (list string)) (failure : option Thrown) : Authenticator :=
  {| config := {| hostUrl := urls;
                  disableDynamicAuthProviderLogin := false;
                  auth_pki := keys |};
     userDb := {| getUserCount := users |};
     teamDb := {| findTeamMembership := fun userId orgId =>
                    if String.eqb orgId "org1" then
                      if String.eqb userId "alice" then Some {| role := "owner" |}
                      else if String.eqb userId "carol" then Some {| role := "member" |}
                      else None
                    else None |};
     hostContextProvider := registry l;
     tokenProvider := {| getTokenForHost := fun _ _ =>
                           (fun s => {| scopes := s |}) <$> token |};
     userService := {| us_deauthorize := fun _ _ => failure |} |}.

Definition self : Authenticator := installation providers 3 (Some ["user"]) None.

Definition request (authenticated : bool) (userId : option string)
    (withSession : bool) (q : Query) : Request :=
  {| isAuthenticated := authenticated;
     user := (fun i => {| user_id := i |}) <$> userId;
     session := if withSession then Some {| authFlow := None |} else None;
     query := q |}.

Definition q (returnTo host scopes override : option string) : Query :=
  {| q_returnTo := returnTo; q_host := host;
     q_scopes := scopes; q_override := override |}.

(** The header of a token that names key [k]. *)
Definition decodeAs (k : option string) (rawJWT : string) : string + JwtHeader :=
  inr {| kid := k |}.

(** An authorize request that asks to override with scopes out of order. *)
Definition overrideRequest : Request :=
  request true (Some "bob") true
    (q (Some "/settings") (Some "github.com") (Some "user,repo,user")
       (Some "true")).

(** The scenario of the document: [scopes=repo,user], no override, the
    token holds [user], the defaults are [user] and [email]. *)
Definition mergeRequest : Request :=
  request true (Some "bob") true
    (q (Some "/settings") (Some "github.com") (Some "repo,user") None).


(** An authorize request of [carol], a plain member of [org1], for the
    unverified provider of that organization. *)
Definition memberRequest : Request :=
  request true (Some "carol") true
    (q (Some "/settings") (Some "gitlab.example") (Some "api") None).

(** A login request for the unverified provider [gitea.example]. *)
Definition loginRequest : Request :=
  request false None true (q None (Some "gitea.example") None None).

(** A request of an authenticated session that names no host. *)
Definition hostlessRequest : Request :=
  request true (Some "bob") true (q None None None None).

(** A deauthorize request of [bob] for [gitea.example]. *)
Definition disconnectRequest : Request :=
  request true (Some "bob") true (q None (Some "gitea.example") None None).


(** An authorize request of [alice], owner of [org1], for the unverified
    provider of that organization. *)
Definition ownerRequest : Request :=
  request true (Some "alice") true
    (q (Some "/settings") (Some "gitlab.example") (Some "api") None).

(** An authorize request for a host no provider serves. *)
Definition strangerRequest : Request :=
  request true (Some "bob") true
    (q (Some "/settings") (Some "nowhere.example") (Some "repo") None).

(** An installation during a key rotation gone wrong: a validating key
    carries the id of the signing key. *)
Definition rotated : Authenticator :=
  {| config := {| hostUrl := urls;
                  disableDynamicAuthProviderLogin := false;
                  auth_pki :=
                    {| signing := {| keypair_id := "k2";
                                     publicKey := "PUBLIC KEY 2" |};
                       validating :=
                         [ {| keypair_id := "k1"; publicKey := "PUBLIC KEY 1" |};
                           {| keypair_id := "k2"; publicKey := "OLD KEY 2" |} ] |} |};
     userDb := userDb self;
     teamDb := teamDb self;
     hostContextProvider := hostContextProvider self;
     tokenProvider := tokenProvider self;
     userService := userService self |}.

End Sample.

(** ** The session cookie (lines 75-79 and 386-395) *)

Module JSText.

(** [String.prototype.split(sep)] for a separator of one code unit. *)
Fixpoint split_char (sep : ascii) (s : string) : list string :=
  match s with
  | EmptyString => [EmptyString]
  | String c s' =>
      match split_char sep s' with
      | [] => [String c EmptyString]
      | p :: ps =>
          if Ascii.eqb c sep then EmptyString :: p :: ps
          else String c p :: ps
      end
  end.

(** [String.prototype.split("; ")]: the text is cut at every occurrence
    of a semicolon followed by a space, scanning from the left. *)
Fixpoint split_semicolon_space (s : string) : list string :=
  match s with
  | EmptyString => [EmptyString]
  | String c s' =>
      let keep :=
        match split_semicolon_space s' with
        | [] => [String c EmptyString]
        | p :: ps => String c p :: ps
        end in
      match s' with
      | String c' s'' =>
          if Ascii.eqb c ";"%char && Ascii.eqb c' " "%char
          then EmptyString :: split_semicolon_space s''
          else keep
      | EmptyString => keep
      end
  end.

(** Whether a code unit occurs in a text. *)
Fixpoint contains (c : ascii) (s : string) : bool :=
  match s with
  | EmptyString => false
  | String c' s' => Ascii.eqb c' c || contains c s'
  end.

End JSText.

(** A plain object whose own properties may hold [undefined]. *)
Module JSDict.

(** [o[k] = v] for a string or [undefined]: the [__proto__] setter
    ignores both. *)
Definition set (o : gmap string (option string)) (k : string)
    (v : option string) : gmap string (option string) :=
  if bool_decide (k = "__proto__") then o else <[k := v]> o.

(** [o[k]]: an own property, even one holding [undefined], hides the
    property [Object.prototype] has under that name. *)
Definition get (o : gmap string (option string)) (k : string)
  : JSObject.Value :=
  match o !! k with
  | Some (Some v) => JSObject.str v
  | Some None => JSObject.undefined
  | None =>
      if bool_decide (k ∈ JSObject.prototype_names) then JSObject.inherited k
      else JSObject.undefined
  end.

End JSDict.

(** [parseCookieHeader] (lines 386-395).  [const [key, value] = vals]
    takes the first two pieces of a pair; [split] yields no empty array. *)
Definition parseCookieHeader (cookie : string) : gmap string (option string) :=
  foldl (fun aggregator vals =>
           match vals with
           | key :: rest => JSDict.set aggregator key (head rest)
           | [] => aggregator
           end)
        ∅ (JSText.split_char "="%char <$> JSText.split_semicolon_space cookie).

(** [jwtFromRequest] (lines 75-79).  The cookie name comes from
    [SessionHandlerProvider.getJWTCookieName], which is not among the
    sources at hand: it is a parameter.  [cookie] is [req.headers.cookie]. *)
Definition jwtFromRequest (getJWTCookieName : Config -> string)
    (self : Authenticator) (cookie : option string) : JSObject.Value :=
  let cookies := parseCookieHeader (JS.or_else cookie EmptyString) in
  let token := JSDict.get cookies (getJWTCookieName (config self)) in
  token.

(** ** The passport callbacks (lines 103-137) *)

(** How a promise settles. *)
Inductive Settled (A : Type) :=
| resolved (a : A)
| rejected (error : Thrown).

Arguments resolved {A} a.
Arguments rejected {A} error.

(** The methods of the user store and of the user service that the
    callbacks call; both return promises. *)
Record UserLoading := {
  findUserById : string -> Settled (option User);
  onAfterUserLoad : User -> Settled User
}.

(** The second argument of [done]. *)
Inductive DoneArg :=
| arg_absent
| arg_false
| arg_user (u : User)
| arg_id (id : string).

Inductive PassportEvent :=
| pe_findUserById (id : string)
| pe_onAfterUserLoad (u : User)
| pe_log_error (msg : string)
| pe_done (err : option Thrown) (arg : DoneArg).

(** [new Error(message)]. *)
Definition newError (message : string) : Thrown :=
  thrown_object (Some message).

(** The verify callback of the JWT strategy (lines 103-116), for the
    subject [sub] of the payload.  The promise of [onAfterUserLoad] is not
    returned to the chain, so its rejection reaches no handler. *)
Definition jwtVerify (loading : UserLoading) (sub : string)
  : list PassportEvent :=
  pe_findUserById sub ::
  match findUserById loading sub with
  | resolved (Some user) =>
      pe_onAfterUserLoad user ::
      match onAfterUserLoad loading user with
      | resolved _ => [pe_done None (arg_user user)]
      | rejected _ => []
      end
  | resolved None =>
      [pe_done (Some (newError ("User " +:+ sub +:+ " not found."))) arg_false]
  | rejected err => [pe_done (Some err) arg_false]
  end.

(** [passport.serializeUser] (lines 118-124). *)
Definition serializeUser (user : option User) : list PassportEvent :=
  match user with
  | Some user => [pe_done None (arg_id (user_id user))]
  | None =>
      [pe_log_error "(Authenticator) serializeUser called with undefined user."]
  end.

(** [passport.deserializeUser] (lines 125-137). *)
Definition deserializeUser (loading : UserLoading) (id : string)
  : list PassportEvent :=
  pe_findUserById id ::
  match findUserById loading id with
  | resolved (Some user) =>
      pe_onAfterUserLoad user ::
      match onAfterUserLoad loading user with
      | resolved user => [pe_done None (arg_user user)]
      | rejected err => [pe_done (Some err) arg_absent]
      end
  | resolved None => [pe_done (Some (newError "User not found.")) arg_absent]
  | rejected err => [pe_done (Some err) arg_absent]
  end.

(** The calls of [done] in a run. *)
Definition doneCalls (t : list PassportEvent) : list PassportEvent :=
  List.filter (fun e => match e with pe_done _ _ => true | _ => false end) t.

(** ** Routing of provider callbacks (lines 153-166) *)

(** A call of the handler: one of the calls above, or the callback of a
    provider strategy. *)
Inductive RouteEvent :=
| route_event (e : Event)
| route_callback (authProvider : AuthProvider).

(** The loop over the host contexts: the first provider whose callback
    path starts the URL takes the request. *)
Fixpoint callbackLoop (url : string) (hostContexts : list HostContext)
  : list RouteEvent :=
  match hostContexts with
  | [] => [route_event (ev_next None)]
  | hc :: rest =>
      let authCallbackPath := authCallbackPath (authProvider hc) in
      if String.prefix authCallbackPath url then
        [route_event (ev_log Info
           ("Auth Provider Callback. Path: " +:+ authCallbackPath));
         route_callback (authProvider hc)]
      else callbackLoop url rest
  end.

(** [authCallbackHandler], on a request whose [req.url] is [url]. *)
Definition authCallbackHandler (self : Authenticator) (url : string)
  : list RouteEvent :=
  if String.prefix "/auth/" url then
    route_event ev_hostContextProvider_getAll ::
    callbackLoop url (hcp_getAll (hostContextProvider self))
  else [route_event (ev_next None)].

(** ** Further observations *)

(** The login counters a run increases. *)
Definition loginCounters (t : list Event) : list (string * string) :=
  omap (fun e => match e with
                 | ev_increaseLoginCounter status host => Some (status, host)
                 | _ => None
                 end) t.

(** The reads of the registry list and of the user count in a run. *)
Definition isSetupRead (e : Event) : bool :=
  match e with
  | ev_hostContextProvider_getAll | ev_getUserCount => true
  | _ => false
  end.

(** A scope name that survives a round through the [scopes] parameter:
    not empty, no comma, no white space at either end. *)
Definition wellFormedScope (x : string) : Prop :=
  x <> EmptyString /\ JSText.contains ","%char x = false /\ JS.trim x = x.

(** The [Cookie] header a client sends for a list of cookies. *)
Fixpoint cookieHeaderOf (cookies : list (string * string)) : string :=
  match cookies with
  | [] => EmptyString
  | [kv] => kv.1 +:+ "=" +:+ kv.2
  | kv :: rest => kv.1 +:+ "=" +:+ kv.2 +:+ "; " +:+ cookieHeaderOf rest
  end.

(** The value the last cookie named [name] carries. *)
Definition lastCookie (name : string) (cookies : list (string * string))
  : option string :=
  snd <$> List.find (fun kv => String.eqb kv.1 name) (reverse cookies).

(** A text a cookie name or value may be: no semicolon, no equals sign. *)
Definition cookieText (s : string) : Prop :=
  JSText.contains ";"%char s = false /\ JSText.contains "="%char s = false.

(** The token lookups of a run, counted. *)
Definition tokenLookups (t : list Event) : nat :=
  length (List.filter isTokenLookup t).

(** The key pairs of the key ring, in the order the dictionary is built. *)
Definition keyRing (self : Authenticator) : list KeyPair :=
  signing (auth_pki (config self)) :: validating (auth_pki (config self)).

(** One step of the [reduce] that builds [publicKeysByID]. *)
Definition registerKey (byID : gmap string string) (keypair : KeyPair)
  : gmap string string :=
  JSObject.set byID (keypair_id keypair) (publicKey keypair).

(** One step of the [reduce] of [parseCookieHeader], for a cookie that
    has a value. *)
Definition storeCookie (aggregator : gmap string (option string))
    (kv : string * string) : gmap string (option string) :=
  JSDict.set aggregator kv.1 (Some kv.2).

(** The cookie name the installation is configured with, in the samples. *)
Definition sampleCookieName (c : Config) : string := "_gitpod_jwt_".

(** What a run of the callback routing ends with: the callback of a
    provider strategy, or [next]. *)
Definition routeOutcome (t : list RouteEvent) : list RouteEvent :=
  List.filter (fun e => match e with
                        | route_callback _ | route_event (ev_next _) => true
                        | _ => false
                        end) t.

(** A user store that finds [bob] only, and an after-load hook that
    renames the user it is given. *)
Definition sampleLoading : UserLoading :=
  {| findUserById := fun id =>
       if String.eqb id "bob" then resolved (Some {| user_id := "bob" |})
       else resolved None;
     onAfterUserLoad := fun u =>
       resolved {| user_id := user_id u +:+ "@migrated" |} |}.

(** * Properties *)

(** ** The embedding at work *)

Example split_comma_ex :
  JS.split_comma "a,,b," = ["a"; EmptyString; "b"; EmptyString].
Proof. reflexivity. Qed.

Example split_comma_empty : JS.split_comma EmptyString = [EmptyString].
Proof. reflexivity. Qed.

Example trim_ex : JS.trim "  read user " = "read user".
Proof. reflexivity. Qed.

Example parseScopes_ex :
  parseScopes " repo, user ,,read:org" = ["repo"; "user"; "read:org"].
Proof. vm_compute. reflexivity. Qed.

Example parseScopes_blank : parseScopes " , " = [].
Proof. vm_compute. reflexivity. Qed.

Example mergeScopes_ex :
  mergeScopes ["user"; "email"] ["repo"; "user"] = ["email"; "repo"; "user"].
Proof. vm_compute. reflexivity. Qed.

(** Capital letters sort before small ones: the order is by code unit. *)
Example sort_code_units : JS.sort ["b"; "a"; "B"] = ["B"; "a"; "b"].
Proof. vm_compute. reflexivity. Qed.

Example publicKeysByID_ex :
  publicKeysByID Sample.self !! "k1" = Some "PUBLIC KEY 1".
Proof. vm_compute. reflexivity. Qed.

(** ** The order of the default comparator *)

Section StringOrder.

Lemma ascii_compare_lt_trans (a b c : ascii) :
  Ascii.compare a b = Lt -> Ascii.compare b c = Lt -> Ascii.compare a c = Lt.
Proof.
  unfold Ascii.compare. rewrite !N.compare_lt_iff. apply N.lt_trans.
Qed.

Lemma string_compare_not_gt_trans (x y z : string) :
  String.compare x y <> Gt -> String.compare y z <> Gt ->
  String.compare x z <> Gt.
Proof.
  revert y z. induction x as [|a x IH]; intros [|b y] [|c z]; simpl; try congruence.
  destruct (Ascii.compare a b) eqn:Hab; try congruence;
    destruct (Ascii.compare b c) eqn:Hbc; try congruence; intros Hxy Hyz.
  - apply Ascii.compare_eq_iff in Hab, Hbc. subst.
    assert (Ascii.compare c c = Eq) as ->.
    { unfold Ascii.compare. apply N.compare_refl. }
    eauto.
  - apply Ascii.compare_eq_iff in Hab. subst. rewrite Hbc. congruence.
  - apply Ascii.compare_eq_iff in Hbc. subst. rewrite Hab. congruence.
  - rewrite (ascii_compare_lt_trans _ _ _ Hab Hbc). congruence.
Qed.

Lemma str_le_not_gt (x y : string) : JS.str_le x y <-> String.compare x y <> Gt.
Proof.
  unfold JS.str_le, String.leb. destruct (String.compare x y); split; congruence.
Qed.

#[global] Instance str_le_trans : Transitive JS.str_le.
Proof.
  intros x y z. rewrite !str_le_not_gt. apply string_compare_not_gt_trans.
Qed.

#[global] Instance str_le_total : Total JS.str_le.
Proof. intros x y. apply String.leb_total. Qed.

#[global] Instance str_le_antisym : AntiSymm (=) JS.str_le.
Proof. intros x y. apply String.leb_antisym. Qed.

End StringOrder.

(** ** Sets in insertion order, sorting and deduplication *)

Section Scopes.

Implicit Types (a b d l s : list string) (x : string).

Lemma elem_of_set_add s y x : x ∈ JS.set_add s y <-> x ∈ s \/ x = y.
Proof.
  unfold JS.set_add. case_decide.
  - split; [auto | intros [?| ->]; auto].
  - rewrite elem_of_app, list_elem_of_singleton. tauto.
Qed.

Lemma NoDup_set_add s y : NoDup s -> NoDup (JS.set_add s y).
Proof.
  intros Hs. unfold JS.set_add. case_decide; [done|].
  apply NoDup_app. split_and!; [done | | apply NoDup_singleton].
  intros x Hx ->%list_elem_of_singleton. done.
Qed.

Lemma elem_of_foldl_set_add l s x :
  x ∈ foldl JS.set_add s l <-> x ∈ s \/ x ∈ l.
Proof.
  revert s. induction l as [|y l IH]; intros s; simpl.
  - rewrite elem_of_nil. tauto.
  - rewrite IH, elem_of_set_add, elem_of_cons. tauto.
Qed.

Lemma NoDup_foldl_set_add l s : NoDup s -> NoDup (foldl JS.set_add s l).
Proof.
  revert s. induction l as [|y l IH]; intros s Hs; simpl; [done|].
  apply IH, NoDup_set_add, Hs.
Qed.

Lemma Sorted_sort l : Sorted JS.str_le (JS.sort l).
Proof. apply Sorted_merge_sort; apply _. Qed.

Lemma sort_Permutation l : JS.sort l ≡ₚ l.
Proof. apply merge_sort_Permutation. Qed.

Lemma elem_of_sort l x : x ∈ JS.sort l <-> x ∈ l.
Proof. by rewrite sort_Permutation. Qed.

(** Two sorted duplicate-free arrays with the same members are equal. *)
Lemma sorted_nodup_ext l1 l2 :
  Sorted JS.str_le l1 -> Sorted JS.str_le l2 -> NoDup l1 -> NoDup l2 ->
  (forall x, x ∈ l1 <-> x ∈ l2) -> l1 = l2.
Proof.
  intros S1 S2 N1 N2 Hext.
  apply (Sorted_unique JS.str_le); [done | done |].
  by apply NoDup_Permutation.
Qed.

Lemma Sorted_mergeScopes a b : Sorted JS.str_le (mergeScopes a b).
Proof. apply Sorted_sort. Qed.

Lemma NoDup_mergeScopes a b : NoDup (mergeScopes a b).
Proof.
  unfold mergeScopes, JS.new_Set. rewrite sort_Permutation.
  apply NoDup_foldl_set_add, NoDup_foldl_set_add, NoDup_nil_2.
Qed.

Lemma elem_of_mergeScopes a b x : x ∈ mergeScopes a b <-> x ∈ a \/ x ∈ b.
Proof.
  unfold mergeScopes, JS.new_Set.
  rewrite elem_of_sort, !elem_of_foldl_set_add, elem_of_nil. tauto.
Qed.

Lemma StronglySorted_remove_dups l :
  StronglySorted JS.str_le l -> StronglySorted JS.str_le (remove_dups l).
Proof.
  induction l as [|x l IH]; simpl; [done|].
  rewrite StronglySorted_cons. intros [Hx Hl].
  case_match; [by apply IH|].
  apply StronglySorted_cons. split; [|by apply IH].
  rewrite Forall_forall in Hx |- *.
  intros y Hy. rewrite elem_of_remove_dups in Hy. by apply Hx.
Qed.

Lemma Sorted_dedupe_sort l : Sorted JS.str_le (Spec.dedupe_sort l).
Proof.
  unfold Spec.dedupe_sort.
  apply StronglySorted_Sorted, StronglySorted_remove_dups.
  apply Sorted_StronglySorted; [apply _ | apply Sorted_sort].
Qed.

Lemma NoDup_dedupe_sort l : NoDup (Spec.dedupe_sort l).
Proof. apply NoDup_remove_dups. Qed.

Lemma elem_of_dedupe_sort l x : x ∈ Spec.dedupe_sort l <-> x ∈ l.
Proof. unfold Spec.dedupe_sort. by rewrite elem_of_remove_dups, elem_of_sort. Qed.

(** [mergeScopes] is the sorted, duplicate-free union of its arguments. *)
Lemma mergeScopes_dedupe_sort a b : mergeScopes a b = Spec.dedupe_sort (a ++ b).
Proof.
  apply sorted_nodup_ext;
    auto using Sorted_mergeScopes, Sorted_dedupe_sort, NoDup_mergeScopes,
               NoDup_dedupe_sort.
  intros x. by rewrite elem_of_mergeScopes, elem_of_dedupe_sort, elem_of_app.
Qed.

(** A result that depends on the members only. *)
Lemma dedupe_sort_ext l1 l2 :
  (forall x, x ∈ l1 <-> x ∈ l2) -> Spec.dedupe_sort l1 = Spec.dedupe_sort l2.
Proof.
  intros Hext. apply sorted_nodup_ext;
    auto using Sorted_dedupe_sort, NoDup_dedupe_sort.
  intros x. by rewrite !elem_of_dedupe_sort.
Qed.

Lemma dedupe_sort_fixed l :
  Sorted JS.str_le l -> NoDup l -> Spec.dedupe_sort l = l.
Proof.
  intros Hs Hn. apply sorted_nodup_ext;
    auto using Sorted_dedupe_sort, NoDup_dedupe_sort.
  intros x. apply elem_of_dedupe_sort.
Qed.

End Scopes.

(** ** Handler runs *)

Ltac run := cbv [bind call ret emit log redirect fst snd trace result].

(** Case analysis on the conditions of a handler: booleans and optional
    values, never the text of a message. *)
Ltac case_cond :=
  match goal with
  | |- context [if ?b then _ else _] => destruct b eqn:?
  | |- context [match ?o with Some _ => _ | None => _ end] => destruct o eqn:?
  | H : context [if ?b then _ else _] |- _ => destruct b eqn:?
  | H : context [match ?o with Some _ => _ | None => _ end] |- _ =>
      destruct o eqn:?
  end.

Ltac observe :=
  cbn [actions membershipLookups List.filter List.find isAction
       isMembershipLookup isTokenLookup app length negb andb orb
       fmap option_fmap option_map list_fmap fst snd] in *.

Ltac cases := repeat (case_cond; simplify_eq; observe).

Section Runs.

Lemma trace_bind {A B} (m : Eff A) (k : A -> Eff B) :
  trace (bind m k) = trace m ++ trace (k (result m)).
Proof. reflexivity. Qed.

Lemma result_bind {A B} (m : Eff A) (k : A -> Eff B) :
  result (bind m k) = result (k (result m)).
Proof. reflexivity. Qed.

Lemma actions_app (t1 t2 : list Event) :
  actions (t1 ++ t2) = actions t1 ++ actions t2.
Proof. apply List.filter_app. Qed.

Lemma membershipLookups_app (t1 t2 : list Event) :
  membershipLookups (t1 ++ t2) = (membershipLookups t1 + membershipLookups t2)%nat.
Proof. unfold membershipLookups. by rewrite List.filter_app, length_app. Qed.

(** The scope computation reads the token store and does nothing else. *)
Lemma trace_computeWantedScopes self req ap scopes override :
  trace (computeWantedScopes self req ap scopes override) =
    if override then []
    else match user req with
         | Some u => [ev_getTokenForHost u (params_host (params ap))]
         | None => []
         end.
Proof.
  unfold computeWantedScopes, getCurrentScopes.
  destruct override; simpl; [done|].
  destruct (user req) as [u|]; simpl;
    repeat (case_match; simpl); done.
Qed.

Lemma actions_computeWantedScopes self req ap scopes override :
  actions (trace (computeWantedScopes self req ap scopes override)) = [].
Proof.
  rewrite trace_computeWantedScopes.
  destruct override; [done|]. by destruct (user req).
Qed.

Lemma membershipLookups_computeWantedScopes self req ap scopes override :
  membershipLookups (trace (computeWantedScopes self req ap scopes override)) = 0%nat.
Proof.
  rewrite trace_computeWantedScopes.
  destruct override; [done|]. by destruct (user req).
Qed.

(** With [override], the requested scopes pass through as parsed. *)
Lemma computeWantedScopes_override self req ap scopes :
  computeWantedScopes self req ap scopes true =
    ret (match parseScopes scopes with
         | [] => match requirements (info ap) with
                 | Some r => requirements_default r
                 | None => []
                 end
         | p => p
         end).
Proof.
  unfold computeWantedScopes. simpl.
  destruct (parseScopes scopes); simpl; [|done]. by case_match.
Qed.

(** Without [override], the class computes what the document's
    negotiation computes. *)
Lemma computeWantedScopes_merge self req ap scopes :
  result (computeWantedScopes self req ap scopes false) =
    Spec.negotiate (parseScopes scopes) (currentOf self req ap)
      (defaultsOf ap) false.
Proof.
  unfold computeWantedScopes, Spec.negotiate, defaultsOf, currentOf.
  destruct (getCurrentScopes self (user req) ap) as [t current].
  destruct (parseScopes scopes) as [|p ps]; simpl;
    destruct (requirements (info ap)) as [r|]; simpl;
    destruct current as [|c cs]; simpl;
    rewrite ?mergeScopes_dedupe_sort; apply dedupe_sort_ext; intros x;
    repeat first [ rewrite elem_of_dedupe_sort | rewrite elem_of_app
                 | rewrite elem_of_cons | rewrite elem_of_nil ];
    tauto.
Qed.

End Runs.

(** ** The gates *)

Section Gates.

Lemma or_else_truthy (s d : string) :
  JS.truthy s = true -> JS.or_else (Some s) d = s.
Proof. intros H. unfold JS.or_else. by rewrite H. Qed.


Lemma owner_decide (o : option string) (x : string) :
  bool_decide (o = Some x) =
    match o with Some y => String.eqb x y | None => false end.
Proof.
  destruct o as [y|]; [|done].
  destruct (String.eqb_spec x y) as [->|Hne].
  - by apply bool_decide_eq_true_2.
  - apply bool_decide_eq_false_2. congruence.
Qed.

Lemma authorizePreconditions_Some self req s u host returnTo ap :
  Spec.authorizePreconditions self req = Some (s, u, host, returnTo, ap) ->
  session req = Some s /\ authenticatedUser req = Some u /\
  q_host (query req) = Some host /\ JS.truthy host = true /\
  (exists hc, hcp_get (hostContextProvider self) host = Some hc
              /\ authProvider hc = ap) /\
  q_returnTo (query req) = Some returnTo /\ JS.truthy returnTo = true.
Proof.
  unfold Spec.authorizePreconditions, Spec.resolve. intros H.
  repeat case_match; simplify_eq. eauto 10.
Qed.

(** The authorization gate, once its preconditions hold: a failing
    policy check ends in the denial page, otherwise the flow is attached
    and the provider strategy receives the computed scopes. *)
Lemma authorize_run self req s u host returnTo ap :
  Spec.authorizePreconditions self req = Some (s, u, host, returnTo, ap) ->
  let override := bool_decide (q_override (query req) = Some "true") in
  let scopes := JS.or_else (q_scopes (query req)) EmptyString in
  match Spec.policyFailure self u (info ap) with
  | Some c =>
      actions (trace (authorize self req)) =
        [ev_redirect (getSorryUrl self (notPermitted "Authorization" host))]
      /\ membershipLookups (trace (authorize self req)) =
           match c with Spec.OwnerOfProvider => 0%nat | _ => 1%nat end
  | None =>
      actions (trace (authorize self req)) =
        [ev_AuthFlow_attach s {| flow_host := host; flow_returnTo := returnTo;
                                 overrideScopes := Some override |};
         ev_authProvider_authorize ap
           (Some (result (computeWantedScopes self req ap scopes override)))]
  end.
Proof.
  intros (Hs & Hu & Hh & Hht & (hc & Hhc & Hap) & Hr & Hrt)%authorizePreconditions_Some.
  intros override scopes.
  pose proof (actions_computeWantedScopes self req ap scopes override) as Hact.
  unfold authorize. rewrite Hs, Hu, Hh, Hr.
  rewrite !or_else_truthy by done.
  unfold lookupProvider, getAuthProviderForHost. rewrite Hht, Hhc.
  fold override scopes.
  unfold Spec.policyFailure, Spec.firstFailure, Spec.policyChecks,
    Spec.membership, Spec.organizationBound, boundOrganization, notOwner,
    notProviderOwner.
  rewrite owner_decide.
  run. observe. rewrite Hap, Hrt. observe.
  destruct (computeWantedScopes self req ap scopes override) as [t ws].
  cbv [trace fst] in Hact.
  destruct (info ap) as [ih v [org|] ow rq];
    cbn [verified organizationId ownerId JS.truthy_opt];
    destruct v; observe; cases;
    rewrite ?actions_app, ?Hact; observe;
    first [done | exfalso; congruence].
Qed.

(** A run of [authorize] never reads the token store under [override]. *)
Lemma authorize_override_no_token_read self req :
  q_override (query req) = Some "true" ->
  Forall (fun e => isTokenLookup e = false) (trace (authorize self req)).
Proof.
  intros Hov. unfold authorize. rewrite Hov.
  rewrite bool_decide_eq_true_2 by done.
  unfold lookupProvider, getAuthProviderForHost.
  destruct (session req); [|run; by repeat constructor].
  destruct (authenticatedUser req); [|run; by repeat constructor].
  destruct (JS.truthy _);
    [destruct (hcp_get _ _)|];
    cbv [bind call ret fst snd fmap option_fmap option_map];
    rewrite ?computeWantedScopes_override; run; cases;
    by repeat constructor.
Qed.

(** The class's setup-mode test computes the document's setup mode. *)
Lemma isInSetupMode_spec self :
  result (isInSetupMode self) = Spec.setupMode self.
Proof.
  unfold isInSetupMode, Spec.setupMode, Spec.builtinCount. run.
  induction (hcp_getAll (hostContextProvider self)) as [|hc l IH]; [done|].
  cbn [existsb List.filter].
  destruct (builtin (params (authProvider hc))); [done|]. apply IH.
Qed.

Lemma actions_isInSetupMode self : actions (trace (isInSetupMode self)) = [].
Proof. unfold isInSetupMode. run. by case_cond. Qed.

(** The login gate on a request that is not yet authenticated. *)
Lemma authenticate_run self req :
  isAuthenticated req = false ->
  actions (trace (authenticate self req)) =
    match Spec.loginFailure self req with
    | Some c => [ev_redirect (getSorryUrl self (loginDenial self req c))]
    | None =>
        match Spec.resolve self req, session req with
        | Some (host, ap), Some s =>
            [ev_AuthFlow_attach s
               {| flow_host := host;
                  flow_returnTo :=
                    JS.or_else (q_returnTo (query req))
                      (asDashboard (hostUrl (config self)));
                  overrideScopes := None |};
             ev_authProvider_authorize ap None]
        | _, _ => []
        end
    end.
Proof.
  intros Hauth. unfold authenticate. rewrite Hauth.
  rewrite trace_bind, actions_app.
  assert (forall o, actions (trace (match o with
            | Some r => if JS.truthy r
                        then log Info ("Stored returnTo URL: " +:+ r)
                        else ret ()
            | None => ret ()
            end)) = []) as ->.
  { intros [r|]; [destruct (JS.truthy r)|]; done. }
  pose proof (isInSetupMode_spec self) as Hsetup.
  pose proof (actions_isInSetupMode self) as Hact.
  unfold Spec.loginFailure, Spec.resolve, loginDenial, Spec.resolve.
  unfold lookupProvider, getAuthProviderForHost.
  destruct (q_host (query req)) as [h|]; [|done].
  cbn [JS.or_else]. destruct (JS.truthy h) eqn:Hh; [|done].
  rewrite Hh.
  destruct (hcp_get (hostContextProvider self) h) as [hc|]; [|done].
  unfold Spec.firstFailure, Spec.loginChecks, Spec.organizationBound.
  destruct (isInSetupMode self) as [t b].
  cbv [trace result fst snd] in Hsetup, Hact. rewrite <- Hsetup.
  run. observe.
  destruct (JS.truthy_opt (organizationId (info (authProvider hc)))); [done|].
  destruct (builtin (params (authProvider hc)));
    destruct (disableDynamicAuthProviderLogin (config self));
    destruct (session req); destruct (verified (info (authProvider hc)));
    try destruct b; observe; rewrite ?actions_app, ?Hact; done.
Qed.

(** The response of [deauthorize], case by case. *)
Lemma deauthorize_run self req :
  actions (trace (deauthorize self req)) =
    match authenticatedUser req with
    | None => [ev_redirect (getSorryUrl self "Not authenticated. Please login.")]
    | Some u =>
        match Spec.resolve self req with
        | None => [ev_redirect (getSorryUrl self "Bad request: missing parameters.")]
        | Some (_, ap) =>
            ev_deauthorize u (authProviderId ap) ::
            match us_deauthorize (userService self) u (authProviderId ap) with
            | None =>
                [ev_redirect (JS.or_else (q_returnTo (query req))
                                (asDashboard (hostUrl (config self))))]
            | Some error =>
                [ev_next (Some error);
                 ev_redirect (getSorryUrl self
                   ("Failed to disconnect a provider: " +:+ reasonOf error))]
            end
        end
    end.
Proof.
  unfold deauthorize, Spec.resolve, lookupProvider, getAuthProviderForHost.
  destruct (authenticatedUser req) as [u|]; [|done].
  destruct (q_host (query req)) as [h|]; [|done].
  cbn [JS.or_else]. destruct (JS.truthy h) eqn:Hh; [|done].
  rewrite Hh.
  destruct (hcp_get (hostContextProvider self) h) as [hc|]; [|done].
  run. observe.
  by destruct (us_deauthorize _ _ _).
Qed.

End Gates.

(** ** Parsing the [scopes] parameter *)

Section Parsing.







End Parsing.

(** ** Scope negotiation in the authorization gate *)

(** With [override=true] and scopes [user,repo,user], the provider
    strategy receives the scopes exactly as requested, neither sorted nor
    deduplicated: not what "dedupe(sort(requested))" yields. *)
Lemma authorize_override_keeps_request :
  q_override (query Sample.overrideRequest) = Some "true"
  /\ actions (trace (authorize Sample.self Sample.overrideRequest)) =
       [ev_AuthFlow_attach {| authFlow := None |}
          {| flow_host := "github.com"; flow_returnTo := "/settings";
             overrideScopes := Some true |};
        ev_authProvider_authorize Sample.github (Some ["user"; "repo"; "user"])]
  /\ Spec.negotiate (parseScopes "user,repo,user")
       (currentOf Sample.self Sample.overrideRequest Sample.github)
       (defaultsOf Sample.github) true = ["repo"; "user"]
  /\ ["user"; "repo"; "user"] <> Spec.dedupe_sort (parseScopes "user,repo,user")
  /\ ~ Sorted JS.str_le ["user"; "repo"; "user"]
  /\ ~ NoDup ["user"; "repo"; "user"].
Proof.
  split_and!.
  - reflexivity.
  - vm_compute. reflexivity.
  - vm_compute. reflexivity.
  - vm_compute. discriminate.
  - intros H. apply Sorted_inv in H as [_ H]. apply HdRel_inv in H.
    vm_compute in H. discriminate.
  - intros H. apply NoDup_cons in H as [H _]. apply H. set_solver.
Qed.

(** C1 (as amended): for every authorize request with [override=true]
    that the gate admits, the scopes handed to the provider are the
    parsed requested scopes as they stand (request order and repetitions
    kept), or the provider's defaults when none is requested; the token
    store is never read, so nothing is taken from the current scopes.
    With [override] off, the scopes handed over are sorted and free of
    duplicates. *)
Theorem authorize_override_scopes self req s u host returnTo ap :
  Spec.authorizePreconditions self req = Some (s, u, host, returnTo, ap) ->
  Spec.policyFailure self u (info ap) = None ->
  (q_override (query req) = Some "true" ->
     actions (trace (authorize self req)) =
       [ev_AuthFlow_attach s {| flow_host := host; flow_returnTo := returnTo;
                                overrideScopes := Some true |};
        ev_authProvider_authorize ap
          (Some match parseScopes (JS.or_else (q_scopes (query req)) EmptyString) with
                | [] => defaultsOf ap
                | requested => requested
                end)]
     /\ Forall (fun e => isTokenLookup e = false) (trace (authorize self req)))
  /\ (q_override (query req) <> Some "true" ->
        exists wantedScopes,
          actions (trace (authorize self req)) =
            [ev_AuthFlow_attach s {| flow_host := host; flow_returnTo := returnTo;
                                     overrideScopes := Some false |};
             ev_authProvider_authorize ap (Some wantedScopes)]
          /\ Sorted JS.str_le wantedScopes /\ NoDup wantedScopes).
Proof.
  intros Hpre Hpol. pose proof (authorize_run _ _ _ _ _ _ _ Hpre) as Hrun.
  cbv zeta in Hrun. rewrite Hpol in Hrun. split.
  - intros Hov. split; [|by apply authorize_override_no_token_read].
    rewrite Hrun, Hov, bool_decide_eq_true_2 by done.
    by rewrite computeWantedScopes_override.
  - intros Hov. eexists. split.
    + rewrite Hrun, bool_decide_eq_false_2 by done. reflexivity.
    + rewrite computeWantedScopes_merge. unfold Spec.negotiate.
      repeat case_match; auto using Sorted_dedupe_sort, NoDup_dedupe_sort.
Qed.

Lemma authorize_override_scopes_witness :
  actions (trace (authorize Sample.self Sample.overrideRequest)) =
    [ev_AuthFlow_attach {| authFlow := None |}
       {| flow_host := "github.com"; flow_returnTo := "/settings";
          overrideScopes := Some true |};
     ev_authProvider_authorize Sample.github (Some ["user"; "repo"; "user"])].
Proof.
  assert (Spec.authorizePreconditions Sample.self Sample.overrideRequest =
            Some ({| authFlow := None |}, {| user_id := "bob" |},
                  "github.com", "/settings", Sample.github)) as Hpre
    by (vm_compute; reflexivity).
  assert (Spec.policyFailure Sample.self {| user_id := "bob" |}
            (info Sample.github) = None) as Hpol
    by (vm_compute; reflexivity).
  destruct (authorize_override_scopes _ _ _ _ _ _ _ Hpre Hpol) as [H _].
  destruct (H eq_refl) as [Hrun _]. exact Hrun.
Defined.



Section Negotiation.

Implicit Types (A B D : list string).

Lemma negotiate_Permutation B B' A A' D :
  B ≡ₚ B' -> A ≡ₚ A' ->
  Spec.negotiate B A D false = Spec.negotiate B' A' D false.
Proof.
  intros HB HA. unfold Spec.negotiate.
  assert (match B with [] => D | _ => B end
          ≡ₚ match B' with [] => D | _ => B' end) as HB'.
  { destruct B as [|b B], B' as [|b' B']; try done;
      by apply Permutation_length in HB. }
  destruct A as [|a A], A' as [|a' A'];
    try (by apply Permutation_length in HA);
    apply dedupe_sort_ext; intros x; by rewrite !elem_of_app, ?HA, HB'.
Qed.

Lemma negotiate_idempotent B A D :
  Spec.negotiate B (Spec.negotiate B A D false) D false =
    Spec.negotiate B A D false.
Proof.
  unfold Spec.negotiate.
  set (requested := match B with [] => D | _ => B end).
  assert (forall X, (forall x, x ∈ requested -> x ∈ X) ->
            Spec.dedupe_sort (Spec.dedupe_sort X ++ requested) =
              Spec.dedupe_sort X) as Habsorb.
  { intros X HX. rewrite <- (dedupe_sort_fixed (Spec.dedupe_sort X)) at 2
      by auto using Sorted_dedupe_sort, NoDup_dedupe_sort.
    apply dedupe_sort_ext. intros x.
    rewrite elem_of_app, !elem_of_dedupe_sort.
    split; [intros [?|?]; auto | auto]. }
  destruct A as [|a A].
  - destruct (Spec.dedupe_sort ([] ++ requested ++ D)) as [|r R] eqn:HR.
    + exact HR.
    + rewrite <- HR. apply Habsorb. intros x Hx.
      rewrite !elem_of_app. auto.
  - destruct (Spec.dedupe_sort ((a :: A) ++ requested)) as [|r R] eqn:HR.
    + assert (a ∈ Spec.dedupe_sort ((a :: A) ++ requested)) as Ha
        by (rewrite elem_of_dedupe_sort; set_solver).
      rewrite HR in Ha. by apply elem_of_nil in Ha.
    + rewrite <- HR. apply Habsorb. intros x Hx.
      rewrite elem_of_app. auto.
Qed.

End Negotiation.

(** C7: without [override], the computed scopes do not depend on the
    order of the entries of the current scopes or of the requested
    scopes, and computing them again with the outcome as the current
    scopes gives the outcome again. *)
Theorem negotiation_order_independent_idempotent
    self req self' req' ap scopes scopes' :
  (parseScopes scopes ≡ₚ parseScopes scopes' ->
   currentOf self req ap ≡ₚ currentOf self' req' ap ->
   result (computeWantedScopes self req ap scopes false) =
     result (computeWantedScopes self' req' ap scopes' false))
  /\ (currentOf self' req' ap =
        result (computeWantedScopes self req ap scopes false) ->
      result (computeWantedScopes self' req' ap scopes false) =
        result (computeWantedScopes self req ap scopes false)).
Proof.
  rewrite !computeWantedScopes_merge. split.
  - intros HB HA. by apply negotiate_Permutation.
  - intros ->. apply negotiate_idempotent.
Qed.

Lemma negotiation_order_independent_idempotent_witness :
  result (computeWantedScopes
            (Sample.installation Sample.providers 3 (Some ["user"; "repo"]) None)
            Sample.mergeRequest Sample.github "read:org, user" false) =
    result (computeWantedScopes
              (Sample.installation Sample.providers 3 (Some ["repo"; "user"]) None)
              Sample.mergeRequest Sample.github "user,read:org" false)
  /\ result (computeWantedScopes
               (Sample.installation Sample.providers 3
                  (Some ["read:org"; "repo"; "user"]) None)
               Sample.mergeRequest Sample.github "read:org, user" false) =
       ["read:org"; "repo"; "user"].
Proof.
  split.
  - apply (proj1 (negotiation_order_independent_idempotent
             (Sample.installation Sample.providers 3 (Some ["user"; "repo"]) None)
             Sample.mergeRequest
             (Sample.installation Sample.providers 3 (Some ["repo"; "user"]) None)
             Sample.mergeRequest Sample.github "read:org, user" "user,read:org")).
    + vm_compute. apply perm_swap.
    + vm_compute. apply perm_swap.
  - exact (proj2 (negotiation_order_independent_idempotent
             (Sample.installation Sample.providers 3 (Some ["user"; "repo"]) None)
             Sample.mergeRequest
             (Sample.installation Sample.providers 3
                (Some ["read:org"; "repo"; "user"]) None)
             Sample.mergeRequest Sample.github "read:org, user" "user,read:org")
           eq_refl).
Defined.

(** ** Policy of the authorization gate *)

(** C3: once the preconditions of the authorization gate hold, its three
    policy checks run in order (owner of the organization for an
    unverified organization-bound provider, owner of the provider for an
    unverified provider without organization, member of the organization
    for any organization-bound provider); the first that fails ends the
    request with the denial page, after the membership lookups made so
    far, and only when none fails is the flow attached and the provider
    strategy called with the computed scopes. *)
Theorem authorize_policy_checks self req s u host returnTo ap :
  Spec.authorizePreconditions self req = Some (s, u, host, returnTo, ap) ->
  let override := bool_decide (q_override (query req) = Some "true") in
  let scopes := JS.or_else (q_scopes (query req)) EmptyString in
  match Spec.policyFailure self u (info ap) with
  | Some c =>
      actions (trace (authorize self req)) =
        [ev_redirect (getSorryUrl self (notPermitted "Authorization" host))]
      /\ membershipLookups (trace (authorize self req)) =
           match c with Spec.OwnerOfProvider => 0%nat | _ => 1%nat end
  | None =>
      actions (trace (authorize self req)) =
        [ev_AuthFlow_attach s {| flow_host := host; flow_returnTo := returnTo;
                                 overrideScopes := Some override |};
         ev_authProvider_authorize ap
           (Some (result (computeWantedScopes self req ap scopes override)))]
  end.
Proof. apply authorize_run. Qed.

Lemma authorize_policy_checks_witness :
  actions (trace (authorize Sample.self Sample.memberRequest)) =
    [ev_redirect (getSorryUrl Sample.self
                    (notPermitted "Authorization" "gitlab.example"))]
  /\ membershipLookups (trace (authorize Sample.self Sample.memberRequest)) = 1%nat.
Proof.
  assert (Spec.authorizePreconditions Sample.self Sample.memberRequest =
            Some ({| authFlow := None |}, {| user_id := "carol" |},
                  "gitlab.example", "/settings", Sample.gitlab)) as Hpre
    by (vm_compute; reflexivity).
  exact (authorize_policy_checks _ _ _ _ _ _ _ Hpre).
Defined.

(** ** The login gate *)

(** C4: for a login request that is not yet authenticated, the gate
    evaluates its five checks in order (host resolving to a provider,
    provider not organization-bound, provider builtin or dynamic logins
    enabled, session present, provider verified or setup mode) and
    answers the first failure with a redirect to the denial page; only
    when all pass is the flow [{host, returnTo}] attached to the session
    and the provider's authorize entry point called. *)
Theorem authenticate_login_gate self req :
  isAuthenticated req = false ->
  actions (trace (authenticate self req)) =
    match Spec.loginFailure self req with
    | Some c => [ev_redirect (getSorryUrl self (loginDenial self req c))]
    | None =>
        match Spec.resolve self req, session req with
        | Some (host, ap), Some s =>
            [ev_AuthFlow_attach s
               {| flow_host := host;
                  flow_returnTo :=
                    JS.or_else (q_returnTo (query req))
                      (asDashboard (hostUrl (config self)));
                  overrideScopes := None |};
             ev_authProvider_authorize ap None]
        | _, _ => []
        end
    end.
Proof. apply authenticate_run. Qed.

Lemma authenticate_login_gate_witness :
  actions (trace (authenticate Sample.self Sample.loginRequest)) =
    [ev_redirect (getSorryUrl Sample.self (notPermitted "Login" "gitea.example"))]
  /\ actions (trace (authenticate
                       (Sample.installation [Sample.gitea] 0 None None)
                       Sample.loginRequest)) =
       [ev_AuthFlow_attach {| authFlow := None |}
          {| flow_host := "gitea.example";
             flow_returnTo := "https://gitpod.example/workspaces";
             overrideScopes := None |};
        ev_authProvider_authorize Sample.gitea None].
Proof.
  split.
  - exact (authenticate_login_gate Sample.self Sample.loginRequest eq_refl).
  - exact (authenticate_login_gate
             (Sample.installation [Sample.gitea] 0 None None)
             Sample.loginRequest eq_refl).
Defined.

(** C10: a login request whose session is already authenticated is
    passed on at once: the run is one log line and the call of [next],
    with no host validation, no registry lookup, no policy or setup-mode
    check and no flow attached, whatever the host parameter is. *)
Theorem authenticate_already_authenticated self req :
  isAuthenticated req = true ->
  trace (authenticate self req) =
    [ev_log Info "User is already authenticated. Continue."; ev_next None].
Proof. intros H. unfold authenticate. by rewrite H. Qed.

Lemma authenticate_already_authenticated_witness :
  q_host (query Sample.hostlessRequest) = None
  /\ trace (authenticate Sample.self Sample.hostlessRequest) =
       [ev_log Info "User is already authenticated. Continue."; ev_next None].
Proof.
  split; [reflexivity|].
  apply (authenticate_already_authenticated Sample.self Sample.hostlessRequest).
  reflexivity.
Defined.

(** ** Setup mode *)

(** C6: setup mode holds exactly when no builtin provider is registered
    and the user store counts no user; registering a builtin provider,
    or storing one more user, makes it false. *)
Theorem isInSetupMode_iff self :
  (result (isInSetupMode self) = true <->
     Spec.builtinCount self = 0%nat /\ getUserCount (userDb self) = 0%N)
  /\ (forall hc, builtin (params (authProvider hc)) = true ->
        result (isInSetupMode (registerProvider hc self)) = false)
  /\ result (isInSetupMode (addUser self)) = false.
Proof.
  split_and!.
  - rewrite isInSetupMode_spec. unfold Spec.setupMode.
    rewrite andb_true_iff, Nat.eqb_eq, N.eqb_eq. done.
  - intros hc Hhc. unfold isInSetupMode, registerProvider. run.
    cbn [hostContextProvider hcp_getAll existsb]. by rewrite Hhc.
  - rewrite isInSetupMode_spec. unfold Spec.setupMode, addUser.
    cbn [userDb getUserCount].
    apply andb_false_iff. right. apply N.eqb_neq, N.neq_succ_0.
Qed.

Lemma isInSetupMode_iff_witness :
  result (isInSetupMode (Sample.installation [Sample.gitea] 0 None None)) = true
  /\ result (isInSetupMode
               (registerProvider {| authProvider := Sample.github |}
                  (Sample.installation [Sample.gitea] 0 None None))) = false
  /\ result (isInSetupMode
               (addUser (Sample.installation [Sample.gitea] 0 None None))) = false.
Proof.
  destruct (isInSetupMode_iff (Sample.installation [Sample.gitea] 0 None None))
    as (Hiff & Hprov & Huser).
  split_and!.
  - apply Hiff. split; reflexivity.
  - apply Hprov. reflexivity.
  - exact Huser.
Defined.

(** ** The [returnTo] parameter *)




(** ** Deauthorization *)



(** ** Key resolution *)

Section KeyRing.

Variable decodeWithoutVerification : string -> string + JwtHeader.

Lemma lookup_foldl_set_None (l : list KeyPair) (m : gmap string string) k :
  k ∉ keypair_id <$> l -> m !! k = None ->
  foldl (fun byID keypair =>
           JSObject.set byID (keypair_id keypair) (publicKey keypair)) m l
    !! k = None.
Proof.
  revert m. induction l as [|kp l IH]; intros m Hk Hm; simpl; [done|].
  rewrite fmap_cons, not_elem_of_cons in Hk. destruct Hk as [Hne Hk].
  apply IH; [done|]. unfold JSObject.set. case_bool_decide; [done|].
  by rewrite lookup_insert_ne.
Qed.

Lemma publicKeysByID_unknown self k :
  k ∉ keyRingIds self -> publicKeysByID self !! k = None.
Proof.
  intros Hk. unfold publicKeysByID. by apply lookup_foldl_set_None.
Qed.

(** A token without key id is refused as such. *)
Lemma secretOrKeyProvider_missing_kid self rawJWT header :
  decodeWithoutVerification rawJWT = inr header ->
  JS.truthy_opt (kid header) = false ->
  secretOrKeyProvider decodeWithoutVerification self rawJWT =
    throws "JWT token does not contain kid (key id) property.".
Proof. intros Hd Hk. unfold secretOrKeyProvider. by rewrite Hd, Hk. Qed.

(** A key id outside the key ring is refused as unknown, unless it is
    the name of a property of [Object.prototype]. *)
Lemma secretOrKeyProvider_unknown_kid self rawJWT header k :
  decodeWithoutVerification rawJWT = inr header ->
  kid header = Some k -> JS.truthy k = true ->
  k ∉ keyRingIds self -> k ∉ JSObject.prototype_names ->
  secretOrKeyProvider decodeWithoutVerification self rawJWT =
    throws "JWT was signed with an unknown key id".
Proof.
  intros Hd Hk Ht Hring Hproto. unfold secretOrKeyProvider.
  rewrite Hd, Hk. cbv zeta. cbn [JS.truthy_opt default from_option id]. rewrite Ht. cbn [negb].
  unfold JSObject.get. rewrite publicKeysByID_unknown by done.
  by rewrite bool_decide_eq_false_2.
Qed.

(** A key id outside the key ring that names a property of
    [Object.prototype] is not refused: [done] receives the inherited
    property. *)
Lemma secretOrKeyProvider_prototype_name self rawJWT header k :
  decodeWithoutVerification rawJWT = inr header ->
  kid header = Some k -> JS.truthy k = true ->
  k ∉ keyRingIds self -> k ∈ JSObject.prototype_names ->
  secretOrKeyProvider decodeWithoutVerification self rawJWT =
    done (JSObject.inherited k).
Proof.
  intros Hd Hk Ht Hring Hproto. unfold secretOrKeyProvider.
  rewrite Hd, Hk. cbv zeta. cbn [JS.truthy_opt default from_option id]. rewrite Ht. cbn [negb].
  unfold JSObject.get. rewrite publicKeysByID_unknown by done.
  by rewrite bool_decide_eq_true_2.
Qed.

(** A key id of the key ring resolves to the public key stored last
    under it, when that key is not the empty string. *)
Lemma secretOrKeyProvider_known self rawJWT header k key :
  decodeWithoutVerification rawJWT = inr header ->
  kid header = Some k -> JS.truthy k = true ->
  publicKeysByID self !! k = Some key -> JS.truthy key = true ->
  secretOrKeyProvider decodeWithoutVerification self rawJWT =
    done (JSObject.str key).
Proof.
  intros Hd Hk Ht Hkey Htk. unfold secretOrKeyProvider.
  rewrite Hd, Hk. cbv zeta. cbn [JS.truthy_opt default from_option id]. rewrite Ht. cbn [negb].
  unfold JSObject.get. rewrite Hkey. cbn [JSObject.truthy]. by rewrite Htk.
Qed.

End KeyRing.

(** C5 (the class departs from it): a token whose header names the key
    id [constructor], which no key of the ring carries, is not refused
    with the unknown-key-id error; the key provider calls [done] with the
    property that the dictionary inherits from [Object.prototype].  A key
    id such as [k3], absent from the ring and from [Object.prototype], is
    refused as unknown, and a token without key id as lacking one. *)
Theorem secretOrKeyProvider_inherited_kid :
  ("constructor" ∉ keyRingIds Sample.self)
  /\ secretOrKeyProvider (Sample.decodeAs (Some "constructor")) Sample.self "jwt" =
       done (JSObject.inherited "constructor")
  /\ secretOrKeyProvider (Sample.decodeAs (Some "k3")) Sample.self "jwt" =
       throws "JWT was signed with an unknown key id"
  /\ secretOrKeyProvider (Sample.decodeAs None) Sample.self "jwt" =
       throws "JWT token does not contain kid (key id) property."
  /\ secretOrKeyProvider (Sample.decodeAs (Some "k1")) Sample.self "jwt" =
       done (JSObject.str "PUBLIC KEY 1").
Proof.
  split_and!.
  - apply (bool_decide_unpack _). vm_compute. exact I.
  - vm_compute. reflexivity.
  - vm_compute. reflexivity.
  - vm_compute. reflexivity.
  - vm_compute. reflexivity.
Qed.

(** * Further properties of the class *)

(** ** [mergeScopes] *)

(** X1: [mergeScopes(a, b)] is sorted, free of duplicates, holds exactly
    the scopes of [a] and of [b], and is no longer than the two together. *)
Theorem mergeScopes_sorted_union (a b : list string) :
  Sorted JS.str_le (mergeScopes a b)
  /\ NoDup (mergeScopes a b)
  /\ (forall x, x ∈ mergeScopes a b <-> x ∈ a \/ x ∈ b)
  /\ (length (mergeScopes a b) <= length a + length b)%nat.
Proof.
  split_and!.
  - apply Sorted_mergeScopes.
  - apply NoDup_mergeScopes.
  - apply elem_of_mergeScopes.
  - rewrite <- length_app. apply submseteq_length, NoDup_submseteq.
    + apply NoDup_mergeScopes.
    + intros x. by rewrite elem_of_mergeScopes, elem_of_app.
Qed.

(** X2: merging is commutative and associative, takes no account of the
    order or repetition of the entries of its arguments, and merging a
    result once more with one of its arguments changes nothing. *)
Theorem mergeScopes_semilattice (a b c a' b' : list string) :
  mergeScopes a b = mergeScopes b a
  /\ mergeScopes (mergeScopes a b) c = mergeScopes a (mergeScopes b c)
  /\ mergeScopes (mergeScopes a b) b = mergeScopes a b
  /\ mergeScopes a (mergeScopes a b) = mergeScopes a b
  /\ ((forall x, x ∈ a <-> x ∈ a') -> (forall x, x ∈ b <-> x ∈ b') ->
      mergeScopes a b = mergeScopes a' b').
Proof.
  split_and!; [| | | |intros Ha Hb];
    apply sorted_nodup_ext;
    auto using Sorted_mergeScopes, NoDup_mergeScopes;
    intros x; rewrite !elem_of_mergeScopes, ?Ha, ?Hb; tauto.
Qed.

Lemma mergeScopes_semilattice_witness :
  mergeScopes ["user"; "repo"; "user"] ["email"] =
    mergeScopes ["repo"; "user"] ["email"; "email"].
Proof.
  refine (proj2 (proj2 (proj2 (proj2
    (mergeScopes_semilattice ["user"; "repo"; "user"] ["email"] []
       ["repo"; "user"] ["email"; "email"])))) _ _).
  - intros x. rewrite !elem_of_cons, !elem_of_nil. tauto.
  - intros x. rewrite !elem_of_cons, !elem_of_nil. tauto.
Defined.

(** X3: an array that is already sorted and free of duplicates comes
    back unchanged when merged with the empty array, on either side. *)
Theorem mergeScopes_fixed (a : list string) :
  Sorted JS.str_le a -> NoDup a ->
  mergeScopes a [] = a /\ mergeScopes [] a = a.
Proof.
  intros Hs Hn.
  split; apply sorted_nodup_ext;
    auto using Sorted_mergeScopes, NoDup_mergeScopes;
    intros x; rewrite elem_of_mergeScopes, elem_of_nil; tauto.
Qed.

Lemma mergeScopes_fixed_witness :
  mergeScopes ["email"; "repo"; "user"] [] = ["email"; "repo"; "user"]
  /\ mergeScopes [] ["email"; "repo"; "user"] = ["email"; "repo"; "user"].
Proof.
  apply mergeScopes_fixed.
  - apply (bool_decide_unpack _). vm_compute. exact I.
  - apply (bool_decide_unpack _). vm_compute. exact I.
Defined.

(** X4: without [override] no scope is lost: the scopes computed are
    exactly the current scopes, the requested scopes (the defaults when
    none is requested) and, when there are no current scopes, the
    defaults. *)
Theorem merge_keeps_scopes self req ap scopes x :
  x ∈ result (computeWantedScopes self req ap scopes false) <->
    x ∈ currentOf self req ap
    \/ x ∈ match parseScopes scopes with
           | [] => defaultsOf ap
           | requested => requested
           end
    \/ (currentOf self req ap = [] /\ x ∈ defaultsOf ap).
Proof.
  rewrite computeWantedScopes_merge. unfold Spec.negotiate.
  destruct (parseScopes scopes) as [|p ps];
    destruct (currentOf self req ap) as [|c cs];
    rewrite elem_of_dedupe_sort, !elem_of_app;
    pose proof (elem_of_nil x); split;
    intuition (try discriminate; auto).
Qed.

(** ** The [scopes] parameter, there and back *)

Section ScopesParameter.

Lemma split_comma_nonempty (s : string) : JS.split_comma s <> [].
Proof.
  destruct s as [|c s]; simpl; [done|].
  destruct (JS.split_comma s); [done|]. by destruct (Ascii.eqb c ",").
Qed.

Lemma split_comma_no_comma (s : string) :
  JSText.contains "," s = false -> JS.split_comma s = [s].
Proof.
  induction s as [|c s IH]; simpl; [done|].
  intros [Hc Hs]%orb_false_iff. rewrite (IH Hs), Hc. done.
Qed.

Lemma split_comma_app (s r : string) :
  JSText.contains "," s = false ->
  JS.split_comma (s +:+ "," +:+ r) = s :: JS.split_comma r.
Proof.
  induction s as [|c s IH]; simpl.
  - intros _. change (EmptyString +:+ r) with r.
    destruct (JS.split_comma r) eqn:Hr; [|reflexivity].
    by apply split_comma_nonempty in Hr.
  - intros [Hc Hs]%orb_false_iff. rewrite (IH Hs), Hc. done.
Qed.

Lemma split_comma_join (l : list string) :
  l <> [] -> Forall (fun x => JSText.contains "," x = false) l ->
  JS.split_comma (JS.join_comma l) = l.
Proof.
  induction l as [|x l IH]; [done|]. intros _ Hl.
  apply Forall_cons in Hl as [Hx Hl]. destruct l as [|y l].
  - by apply split_comma_no_comma.
  - change (JS.join_comma (x :: y :: l))
      with (x +:+ "," +:+ JS.join_comma (y :: l)).
    rewrite split_comma_app by done. by rewrite IH.
Qed.

Lemma contains_trimStart c (s : string) :
  JSText.contains c s = false -> JSText.contains c (JS.trimStart s) = false.
Proof.
  induction s as [|d s IH]; simpl; [done|].
  intros [Hd Hs]%orb_false_iff.
  destruct (JS.is_white d); [by apply IH|]. simpl. by rewrite Hd, Hs.
Qed.

Lemma contains_trimEnd c (s : string) :
  JSText.contains c s = false -> JSText.contains c (JS.trimEnd s) = false.
Proof.
  induction s as [|d s IH]; simpl; [done|].
  intros [Hd Hs]%orb_false_iff. specialize (IH Hs).
  destruct (JS.trimEnd s) as [|e t].
  - destruct (JS.is_white d); simpl; [done|]. by rewrite Hd.
  - simpl in *. by rewrite Hd, IH.
Qed.

Lemma split_comma_pieces (s : string) :
  Forall (fun p => JSText.contains "," p = false) (JS.split_comma s).
Proof.
  induction s as [|c s IH]; simpl; [by repeat constructor|].
  destruct (JS.split_comma s) as [|p ps] eqn:Hs;
    [by apply split_comma_nonempty in Hs|].
  apply Forall_cons in IH as [Hp Hps].
  destruct (Ascii.eqb c ",") eqn:Hc.
  - by repeat constructor.
  - constructor; [|done]. simpl. by rewrite Hc, Hp.
Qed.

End ScopesParameter.

(** X5: a list of scope names that are not empty, hold no comma and have
    no white space at either end, joined with commas as the log line of
    [authorize] joins them, is parsed back to the same list. *)
Theorem parseScopes_join (l : list string) :
  Forall wellFormedScope l -> parseScopes (JS.join_comma l) = l.
Proof.
  intros Hl. destruct (decide (l = [])) as [->|Hne]; [done|].
  unfold parseScopes. rewrite split_comma_join; [|done|].
  - induction Hl as [|x l (Hx & _ & Ht) Hl IH]; [done|].
    rewrite fmap_cons, Ht, filter_cons_True.
    + destruct l as [|y l]; [done|]. by rewrite IH.
    + destruct x; simpl; [done | lia].
  - eapply Forall_impl; [exact Hl|]. by intros x (_ & Hx & _).
Qed.

Lemma parseScopes_join_witness :
  parseScopes (JS.join_comma ["repo"; "read:org"; "user"]) =
    ["repo"; "read:org"; "user"].
Proof.
  apply parseScopes_join.
  repeat (apply Forall_cons; split;
          [split_and!; [discriminate | reflexivity | reflexivity]|]).
  apply Forall_nil_2.
Defined.

(** X6: no entry of the parsed [scopes] parameter holds a comma, and
    a parameter made of commas and white space only yields no entry. *)
Theorem parseScopes_no_comma (scopes : string) :
  Forall (fun x => JSText.contains "," x = false) (parseScopes scopes)
  /\ (Forall (fun p => JS.trim p = EmptyString) (JS.split_comma scopes) ->
      parseScopes scopes = []).
Proof.
  split.
  - unfold parseScopes. apply Forall_forall. intros x.
    rewrite list_elem_of_filter, list_elem_of_fmap.
    intros [_ (p & -> & Hp)].
    pose proof (split_comma_pieces scopes) as Hall.
    rewrite Forall_forall in Hall.
    by apply contains_trimEnd, contains_trimStart, Hall.
  - intros Hblank. unfold parseScopes.
    induction Hblank as [|p ps Hp _ IH]; [done|].
    rewrite fmap_cons, Hp, filter_cons_False; [done | simpl; lia].
Qed.

Lemma parseScopes_no_comma_witness : parseScopes " , ,, " = [].
Proof.
  apply (proj2 (parseScopes_no_comma " , ,, ")).
  vm_compute. repeat constructor.
Defined.

(** ** The authorization gate, beyond its policy *)

Section AuthorizeRuns.

(** The first precondition that fails decides the denial page, and no
    store is read. *)
Lemma authorize_rejected_run self req :
  Spec.authorizePreconditions self req = None ->
  actions (trace (authorize self req)) =
    [ev_redirect (getSorryUrl self
       match session req, authenticatedUser req with
       | None, _ => "No session found. Please refresh the browser."
       | Some _, None => "Not authenticated. Please login."
       | Some _, Some _ => "Bad request: missing parameters."
       end)]
  /\ membershipLookups (trace (authorize self req)) = 0%nat
  /\ tokenLookups (trace (authorize self req)) = 0%nat.
Proof.
  unfold Spec.authorizePreconditions, Spec.resolve, authorize, lookupProvider,
    getAuthProviderForHost, tokenLookups.
  destruct (session req); [|done].
  destruct (authenticatedUser req); [|done].
  destruct (q_host (query req)) as [h|]; [|done].
  cbn [JS.or_else]. destruct (JS.truthy h) eqn:Hh; [|done]. rewrite Hh.
  destruct (hcp_get _ _); [|done].
  destruct (q_returnTo (query req)) as [r|]; [|done].
  cbn [JS.or_else]. destruct (JS.truthy r) eqn:Hr; [done|].
  intros _. run. observe. done.
Qed.

Lemma authenticatedUser_user req u :
  authenticatedUser req = Some u -> user req = Some u.
Proof. unfold authenticatedUser. by destruct (isAuthenticated req). Qed.

(** How often a run of [authorize] reads the token store. *)
Lemma authorize_token_reads self req :
  tokenLookups (trace (authorize self req)) =
    match Spec.authorizePreconditions self req with
    | Some (_, u, _, _, ap) =>
        match Spec.policyFailure self u (info ap) with
        | None =>
            if bool_decide (q_override (query req) = Some "true")
            then 0%nat else 1%nat
        | Some _ => 0%nat
        end
    | None => 0%nat
    end.
Proof.
  destruct (Spec.authorizePreconditions self req)
    as [[[[[s u] host] returnTo] ap]|] eqn:Hpre;
    [|by apply authorize_rejected_run].
  apply authorizePreconditions_Some in Hpre
    as (Hs & Hu & Hh & Hht & (hc & Hhc & Hap) & Hr & Hrt).
  pose proof (trace_computeWantedScopes self req ap
    (JS.or_else (q_scopes (query req)) EmptyString)
    (bool_decide (q_override (query req) = Some "true"))) as Htr.
  rewrite (authenticatedUser_user _ _ Hu) in Htr.
  unfold authorize, tokenLookups. rewrite Hs, Hu, Hh, Hr.
  remember (bool_decide (q_override (query req) = Some "true")) as override.
  rewrite !or_else_truthy by done.
  unfold lookupProvider, getAuthProviderForHost. rewrite Hht, Hhc.
  unfold Spec.policyFailure, Spec.firstFailure, Spec.policyChecks,
    Spec.membership, Spec.organizationBound, boundOrganization, notOwner,
    notProviderOwner.
  rewrite owner_decide.
  run. observe. rewrite Hap, Hrt. observe.
  destruct (computeWantedScopes self req ap _ _) as [t ws].
  cbv [trace fst] in Htr. subst t.
  destruct (info ap) as [ih v [org|] ow rq];
    cbn [verified organizationId ownerId JS.truthy_opt];
    destruct v; observe; cases;
    first [done | exfalso; congruence].
Qed.

(** How often an admitted run of [authorize] reads the team store. *)
Lemma authorize_admitted_membership_reads self req s u host returnTo ap :
  Spec.authorizePreconditions self req = Some (s, u, host, returnTo, ap) ->
  Spec.policyFailure self u (info ap) = None ->
  membershipLookups (trace (authorize self req)) =
    if Spec.organizationBound (info ap)
    then (if verified (info ap) then 1%nat else 2%nat)
    else 0%nat.
Proof.
  intros (Hs & Hu & Hh & Hht & (hc & Hhc & Hap) & Hr & Hrt)%authorizePreconditions_Some.
  pose proof (membershipLookups_computeWantedScopes self req ap
    (JS.or_else (q_scopes (query req)) EmptyString)
    (bool_decide (q_override (query req) = Some "true"))) as Hm.
  unfold authorize. rewrite Hs, Hu, Hh, Hr.
  remember (bool_decide (q_override (query req) = Some "true")) as override.
  rewrite !or_else_truthy by done.
  unfold lookupProvider, getAuthProviderForHost. rewrite Hht, Hhc.
  unfold Spec.policyFailure, Spec.firstFailure, Spec.policyChecks,
    Spec.membership, Spec.organizationBound, boundOrganization, notOwner,
    notProviderOwner.
  rewrite owner_decide.
  run. observe. rewrite Hap, Hrt. observe.
  destruct (computeWantedScopes self req ap _ _) as [t ws].
  cbv [trace fst membershipLookups] in Hm.
  destruct (info ap) as [ih v [org|] ow rq];
    cbn [verified organizationId ownerId JS.truthy_opt];
    destruct v; observe; cases; intros Hpol;
    rewrite ?List.filter_app, ?length_app, ?Hm; observe;
    first [done | exfalso; congruence].
Qed.

End AuthorizeRuns.

(** X7: when a precondition of the authorization gate fails, the
    response is one redirect to the denial page, with the message of the
    first that fails (no session, not authenticated, then missing
    [returnTo], missing [host] or unknown provider), and neither the team
    store nor the token store is read. *)
Theorem authorize_preconditions self req :
  Spec.authorizePreconditions self req = None ->
  actions (trace (authorize self req)) =
    [ev_redirect (getSorryUrl self
       match session req, authenticatedUser req with
       | None, _ => "No session found. Please refresh the browser."
       | Some _, None => "Not authenticated. Please login."
       | Some _, Some _ => "Bad request: missing parameters."
       end)]
  /\ membershipLookups (trace (authorize self req)) = 0%nat
  /\ tokenLookups (trace (authorize self req)) = 0%nat.
Proof. apply authorize_rejected_run. Qed.

Lemma authorize_preconditions_witness :
  actions (trace (authorize Sample.self Sample.strangerRequest)) =
    [ev_redirect (getSorryUrl Sample.self "Bad request: missing parameters.")]
  /\ actions (trace (authorize Sample.self Sample.loginRequest)) =
       [ev_redirect (getSorryUrl Sample.self "Not authenticated. Please login.")].
Proof.
  split.
  - apply (authorize_preconditions Sample.self Sample.strangerRequest).
    reflexivity.
  - apply (authorize_preconditions Sample.self Sample.loginRequest).
    reflexivity.
Defined.


(** X9: a run of [authorize] reads the token store once when the request
    is admitted without [override], and never otherwise: not with
    [override], not when a precondition or a policy check fails. *)
Theorem authorize_reads_token_once self req :
  tokenLookups (trace (authorize self req)) =
    match Spec.authorizePreconditions self req with
    | Some (_, u, _, _, ap) =>
        match Spec.policyFailure self u (info ap) with
        | None =>
            if bool_decide (q_override (query req) = Some "true")
            then 0%nat else 1%nat
        | Some _ => 0%nat
        end
    | None => 0%nat
    end.
Proof. apply authorize_token_reads. Qed.

(** X10: a run of [authorize] asks the team store for a membership at
    most twice; an admitted request asks twice for an unverified
    organization-bound provider, once for a verified one, and never for
    a provider without organization. *)
Theorem authorize_team_store_reads self req :
  (membershipLookups (trace (authorize self req)) <= 2)%nat
  /\ (forall s u host returnTo ap,
        Spec.authorizePreconditions self req = Some (s, u, host, returnTo, ap) ->
        Spec.policyFailure self u (info ap) = None ->
        membershipLookups (trace (authorize self req)) =
          if Spec.organizationBound (info ap)
          then (if verified (info ap) then 1%nat else 2%nat)
          else 0%nat).
Proof.
  split; [|apply authorize_admitted_membership_reads].
  destruct (Spec.authorizePreconditions self req)
    as [[[[[s u] host] returnTo] ap]|] eqn:Hpre.
  - pose proof (authorize_run _ _ _ _ _ _ _ Hpre) as Hrun. cbv zeta in Hrun.
    destruct (Spec.policyFailure self u (info ap)) as [c|] eqn:Hpol.
    + destruct Hrun as [_ ->]. destruct c; lia.
    + rewrite (authorize_admitted_membership_reads _ _ _ _ _ _ _ Hpre Hpol).
      repeat case_match; lia.
  - apply authorize_rejected_run in Hpre as (_ & -> & _). lia.
Qed.

Lemma authorize_team_store_reads_witness :
  membershipLookups (trace (authorize Sample.self Sample.ownerRequest)) = 2%nat
  /\ membershipLookups (trace (authorize Sample.self Sample.mergeRequest)) = 0%nat.
Proof.
  split.
  - refine (proj2 (authorize_team_store_reads Sample.self Sample.ownerRequest)
              {| authFlow := None |} {| user_id := "alice" |}
              "gitlab.example" "/settings" Sample.gitlab _ _);
      vm_compute; reflexivity.
  - refine (proj2 (authorize_team_store_reads Sample.self Sample.mergeRequest)
              {| authFlow := None |} {| user_id := "bob" |}
              "github.com" "/settings" Sample.github _ _);
      vm_compute; reflexivity.
Defined.

(** ** The login gate, beyond its checks *)

Section LoginRuns.

Lemma isInSetupMode_trace self :
  trace (isInSetupMode self) =
    ev_hostContextProvider_getAll ::
    if (Spec.builtinCount self =? 0)%nat then [ev_getUserCount] else [].
Proof.
  unfold isInSetupMode, Spec.builtinCount. run.
  assert (existsb (fun hc => builtin (params (authProvider hc)))
            (hcp_getAll (hostContextProvider self)) =
          negb (length (List.filter
                  (fun hc => builtin (params (authProvider hc)))
                  (hcp_getAll (hostContextProvider self))) =? 0)%nat) as ->.
  { induction (hcp_getAll (hostContextProvider self)) as [|hc l IH]; [done|].
    cbn [existsb List.filter].
    destruct (builtin (params (authProvider hc))); [done|]. apply IH. }
  by destruct (_ =? 0)%nat.
Qed.

(** Which login counter a run of [authenticate] increases. *)
Lemma authenticate_counters self req :
  loginCounters (trace (authenticate self req)) =
    if isAuthenticated req then []
    else
      match Spec.resolve self req with
      | Some (_, ap) =>
          match Spec.firstFailure (Spec.loginChecks self req ap) with
          | Some Spec.RequireSession =>
              [("failed_client", info_host (info ap))]
          | Some Spec.RequireTrustOrSetup => [("failed", info_host (info ap))]
          | _ => []
          end
      | None => []
      end.
Proof.
  unfold authenticate. destruct (isAuthenticated req); [done|].
  rewrite trace_bind. unfold loginCounters. rewrite omap_app.
  assert (forall o, omap (fun e => match e with
                       | ev_increaseLoginCounter status host => Some (status, host)
                       | _ => None
                       end)
            (trace (match o with
               | Some r => if JS.truthy r
                           then log Info ("Stored returnTo URL: " +:+ r)
                           else ret ()
               | None => ret ()
               end)) = []) as ->.
  { intros [r|]; [destruct (JS.truthy r)|]; done. }
  pose proof (isInSetupMode_spec self) as Hsetup.
  pose proof (isInSetupMode_trace self) as Htrace.
  unfold Spec.resolve, lookupProvider, getAuthProviderForHost.
  destruct (q_host (query req)) as [h|]; [|done].
  cbn [JS.or_else]. destruct (JS.truthy h) eqn:Hh; [|done].
  rewrite Hh.
  destruct (hcp_get (hostContextProvider self) h) as [hc|]; [|done].
  unfold Spec.firstFailure, Spec.loginChecks, Spec.organizationBound.
  destruct (isInSetupMode self) as [t b].
  cbv [trace result fst snd] in Hsetup, Htrace. rewrite <- Hsetup. subst t.
  run. observe.
  destruct (JS.truthy_opt (organizationId (info (authProvider hc)))); [done|].
  destruct (builtin (params (authProvider hc)));
    destruct (disableDynamicAuthProviderLogin (config self));
    destruct (session req); destruct (verified (info (authProvider hc)));
    try destruct b; destruct (Spec.builtinCount self =? 0)%nat; done.
Qed.

(** A login with a verified provider reads neither the registry list
    nor the user count. *)
Lemma authenticate_verified_no_setup_read self req host ap :
  Spec.resolve self req = Some (host, ap) ->
  verified (info ap) = true ->
  Forall (fun e => isSetupRead e = false) (trace (authenticate self req)).
Proof.
  unfold Spec.resolve, authenticate, lookupProvider, getAuthProviderForHost.
  destruct (q_host (query req)) as [h|]; [|done].
  cbn [JS.or_else]. destruct (JS.truthy h) eqn:Hh; [|done].
  rewrite Hh.
  destruct (hcp_get (hostContextProvider self) h) as [hc|]; [|done].
  intros [= <- <-] Hv. run. observe. rewrite Hv.
  destruct (isAuthenticated req); [by repeat constructor|].
  destruct (q_returnTo (query req)) as [r|]; [destruct (JS.truthy r)|];
    cases; by repeat constructor.
Qed.

End LoginRuns.

(** X11: a run of [authenticate] increases the login counter at most
    once: with status [failed_client] when the session is missing, with
    status [failed] when an unverified provider is refused outside setup
    mode, each for the provider's host, and not at all for any other
    denial, for a login that goes through, or for a session that is
    already authenticated. *)
Theorem authenticate_login_counter self req :
  loginCounters (trace (authenticate self req)) =
    if isAuthenticated req then []
    else
      match Spec.resolve self req with
      | Some (_, ap) =>
          match Spec.firstFailure (Spec.loginChecks self req ap) with
          | Some Spec.RequireSession =>
              [("failed_client", info_host (info ap))]
          | Some Spec.RequireTrustOrSetup => [("failed", info_host (info ap))]
          | _ => []
          end
      | None => []
      end.
Proof. apply authenticate_counters. Qed.

(** X12: the setup-mode test reads the registry list and, only when no
    provider is builtin, the user count; a login with a verified
    provider makes neither read. *)
Theorem setup_mode_reads self req host ap :
  trace (isInSetupMode self) =
    ev_hostContextProvider_getAll ::
    (if (Spec.builtinCount self =? 0)%nat then [ev_getUserCount] else [])
  /\ (Spec.resolve self req = Some (host, ap) ->
      verified (info ap) = true ->
      Forall (fun e => isSetupRead e = false) (trace (authenticate self req))).
Proof.
  split; [apply isInSetupMode_trace | apply authenticate_verified_no_setup_read].
Qed.

Lemma setup_mode_reads_witness :
  Forall (fun e => isSetupRead e = false)
    (trace (authenticate Sample.self
              (Sample.request false None true
                 (Sample.q None (Some "github.com") None None)))).
Proof.
  apply (proj2 (setup_mode_reads Sample.self
                  (Sample.request false None true
                     (Sample.q None (Some "github.com") None None))
                  "github.com" Sample.github));
    reflexivity.
Defined.

(** ** Empty parameters *)



(** X14: with an absent or empty [host] no flow consults the provider
    registry; an unauthenticated login and an authenticated deauthorize
    both answer with the bad-request page. *)
Theorem missing_host self req :
  JS.truthy_opt (q_host (query req)) = false ->
  Forall (fun e => forall h, e <> ev_hostContextProvider_get h)
    (trace (authenticate self req) ++ trace (authorize self req)
     ++ trace (deauthorize self req))
  /\ (isAuthenticated req = false ->
      actions (trace (authenticate self req)) =
        [ev_redirect (getSorryUrl self "Bad request: missing parameters.")])
  /\ (forall u, authenticatedUser req = Some u ->
      actions (trace (deauthorize self req)) =
        [ev_redirect (getSorryUrl self "Bad request: missing parameters.")]).
Proof.
  intros Hhost.
  assert (JS.or_else (q_host (query req)) EmptyString = EmptyString) as Hor.
  { destruct (q_host (query req)) as [h|]; [|done].
    simpl in *. by rewrite Hhost. }
  split_and!.
  - unfold authenticate, authorize, deauthorize, lookupProvider. rewrite Hor.
    cbn [JS.truthy]. run.
    destruct (isAuthenticated req), (session req), (authenticatedUser req),
      (q_returnTo (query req)) as [r|];
      try destruct (JS.truthy r);
      cbn [app]; repeat (constructor; [intros ?; discriminate|]);
      constructor.
  - intros Hauth. rewrite authenticate_run by done.
    unfold Spec.loginFailure, Spec.resolve.
    destruct (q_host (query req)) as [h|]; [|done].
    simpl in Hhost. by rewrite Hhost.
  - intros u Hu. rewrite deauthorize_run, Hu. unfold Spec.resolve.
    destruct (q_host (query req)) as [h|]; [|done].
    simpl in Hhost. by rewrite Hhost.
Qed.

Lemma missing_host_witness :
  actions (trace (deauthorize Sample.self Sample.hostlessRequest)) =
    [ev_redirect (getSorryUrl Sample.self "Bad request: missing parameters.")].
Proof.
  apply (proj2 (proj2 (missing_host Sample.self Sample.hostlessRequest eq_refl))
           {| user_id := "bob" |}).
  reflexivity.
Defined.

(** ** Deauthorization, beyond its outcomes *)

(** X15: [deauthorize] calls the deauthorize collaborator only for the
    authenticated user of the request and the provider the [host]
    parameter resolves to; whatever happens, its last act is a redirect,
    and it neither attaches a flow nor calls a provider strategy. *)
Theorem deauthorize_only_own self req :
  (forall u id, ev_deauthorize u id ∈ trace (deauthorize self req) ->
     authenticatedUser req = Some u
     /\ exists host ap, Spec.resolve self req = Some (host, ap)
                        /\ id = authProviderId ap)
  /\ (exists url, last (actions (trace (deauthorize self req))) =
                    Some (ev_redirect url))
  /\ (forall e, e ∈ trace (deauthorize self req) ->
        match e with
        | ev_AuthFlow_attach _ _ | ev_authProvider_authorize _ _ => False
        | _ => True
        end).
Proof.
  assert (forall e, isAction e = true ->
            e ∈ trace (deauthorize self req) ->
            e ∈ actions (trace (deauthorize self req))) as Hact.
  { intros e He Hin. apply list_elem_of_In, List.filter_In.
    split; [by apply list_elem_of_In | done]. }
  pose proof (deauthorize_run self req) as Hrun.
  split_and!.
  - intros u id Hin%Hact; [|done]. rewrite Hrun in Hin.
    destruct (authenticatedUser req) as [u'|];
      [|by apply list_elem_of_singleton in Hin].
    destruct (Spec.resolve self req) as [[host ap]|];
      [|by apply list_elem_of_singleton in Hin].
    apply elem_of_cons in Hin as [[= -> ->]|Hin]; [by eauto|].
    destruct (us_deauthorize _ _ _);
      repeat (apply elem_of_cons in Hin as [Hin|Hin]; [discriminate|]);
      by apply elem_of_nil in Hin.
  - rewrite Hrun. repeat case_match; by eexists.
  - intros e Hin. destruct e; try done.
    + apply Hact in Hin; [|done]. rewrite Hrun in Hin.
      repeat case_match;
        repeat (apply elem_of_cons in Hin as [Hin|Hin]; [discriminate|]);
        by apply elem_of_nil in Hin.
    + apply Hact in Hin; [|done]. rewrite Hrun in Hin.
      repeat case_match;
        repeat (apply elem_of_cons in Hin as [Hin|Hin]; [discriminate|]);
        by apply elem_of_nil in Hin.
Qed.

Lemma deauthorize_only_own_witness :
  authenticatedUser Sample.disconnectRequest = Some {| user_id := "bob" |}
  /\ exists host ap,
       Spec.resolve Sample.self Sample.disconnectRequest = Some (host, ap)
       /\ "bob-gitea" = authProviderId ap.
Proof.
  apply (proj1 (deauthorize_only_own Sample.self Sample.disconnectRequest)).
  change (trace (deauthorize Sample.self Sample.disconnectRequest))
    with [ev_hostContextProvider_get "gitea.example";
          ev_deauthorize {| user_id := "bob" |} "bob-gitea";
          ev_redirect "https://gitpod.example/workspaces"].
  apply list_elem_of_further, list_elem_of_here.
Defined.

(** ** The key ring *)

Section KeyRingMore.

Variable decodeWithoutVerification : string -> string + JwtHeader.

Lemma publicKeysByID_foldl self :
  publicKeysByID self = foldl registerKey ∅ (keyRing self).
Proof. reflexivity. Qed.

Lemma lookup_foldl_registerKey_notin (l : list KeyPair) m k :
  k ∉ keypair_id <$> l -> foldl registerKey m l !! k = m !! k.
Proof.
  revert m. induction l as [|kp l IH]; intros m Hk; simpl; [done|].
  rewrite fmap_cons, not_elem_of_cons in Hk. destruct Hk as [Hne Hk].
  rewrite IH by done. unfold registerKey, JSObject.set.
  case_bool_decide; [done|]. by rewrite lookup_insert_ne.
Qed.

Lemma lookup_foldl_registerKey_Some (l : list KeyPair) m k key :
  foldl registerKey m l !! k = Some key ->
  m !! k = Some key
  \/ exists kp, kp ∈ l /\ keypair_id kp = k /\ publicKey kp = key.
Proof.
  revert m. induction l as [|kp l IH]; intros m; simpl; [by left|].
  intros [Hm|(kp' & Hin & Hid & Hpk)]%IH.
  - unfold registerKey, JSObject.set in Hm. case_bool_decide; [by left|].
    destruct (decide (keypair_id kp = k)) as [<-|Hne].
    + rewrite lookup_insert_eq in Hm. right. exists kp.
      split; [by left|]. split; congruence.
    + rewrite lookup_insert_ne in Hm by done. by left.
  - right. exists kp'. split; [by right|done].
Qed.

Lemma lookup_proto_foldl_registerKey (l : list KeyPair) m :
  foldl registerKey m l !! "__proto__" = m !! "__proto__".
Proof.
  revert m. induction l as [|kp l IH]; intros m; simpl; [done|].
  rewrite IH. unfold registerKey, JSObject.set.
  case_bool_decide as Hk; [done|]. by rewrite lookup_insert_ne.
Qed.

End KeyRingMore.

(** X16: whenever the key provider calls [done], the token's header
    names a key id that is not empty and the value handed over is truthy;
    when that value is a string, it is the non-empty public key of a key
    pair of the ring that carries this id. *)
Theorem secretOrKeyProvider_done_sound
    (decodeWithoutVerification : string -> string + JwtHeader)
    self rawJWT v :
  secretOrKeyProvider decodeWithoutVerification self rawJWT = done v ->
  exists header k,
    decodeWithoutVerification rawJWT = inr header
    /\ kid header = Some k /\ k <> EmptyString
    /\ JSObject.truthy v = true
    /\ (forall key, v = JSObject.str key ->
          key <> EmptyString
          /\ exists kp, kp ∈ keyRing self
                        /\ keypair_id kp = k /\ publicKey kp = key).
Proof.
  unfold secretOrKeyProvider.
  destruct (decodeWithoutVerification rawJWT) as [msg|header]; [done|].
  destruct (kid header) as [k|] eqn:Hkid; [|done].
  cbn [JS.truthy_opt default from_option id]. cbv zeta.
  destruct (JS.truthy k) eqn:Hk; [|done]. cbn [negb].
  destruct (JSObject.truthy (JSObject.get (publicKeysByID self) k)) eqn:Hv;
    [|done].
  cbn [negb]. intros [= <-]. exists header, k.
  split_and!; [done | done | by intros -> | done |].
  intros key Hkey. unfold JSObject.get in Hkey, Hv.
  destruct (publicKeysByID self !! k) as [key'|] eqn:Hlook;
    [|by case_bool_decide].
  injection Hkey as ->. split; [by intros ->|].
  rewrite publicKeysByID_foldl in Hlook.
  apply lookup_foldl_registerKey_Some in Hlook as [Hempty|Hkp]; [|done].
  by rewrite lookup_empty in Hempty.
Qed.

Lemma secretOrKeyProvider_done_sound_witness :
  exists header k,
    Sample.decodeAs (Some "k1") "jwt" = inr header
    /\ kid header = Some k /\ k <> EmptyString
    /\ JSObject.truthy (JSObject.str "PUBLIC KEY 1") = true
    /\ (forall key, JSObject.str "PUBLIC KEY 1" = JSObject.str key ->
          key <> EmptyString
          /\ exists kp, kp ∈ keyRing Sample.self
                        /\ keypair_id kp = k /\ publicKey kp = key).
Proof.
  apply (secretOrKeyProvider_done_sound (Sample.decodeAs (Some "k1"))
           Sample.self "jwt").
  vm_compute. reflexivity.
Defined.

(** X17: when several key pairs of the ring carry the same id, the one
    that comes last (the signing key first, then the validating keys in
    order) decides: a token naming that id gets its public key, or the
    unknown-key-id error when that public key is the empty string. *)
Theorem publicKeysByID_last_wins
    (decodeWithoutVerification : string -> string + JwtHeader)
    self rawJWT header l1 kp l2 :
  keyRing self = l1 ++ kp :: l2 ->
  keypair_id kp ∉ keypair_id <$> l2 ->
  keypair_id kp <> "__proto__" -> keypair_id kp <> EmptyString ->
  decodeWithoutVerification rawJWT = inr header ->
  kid header = Some (keypair_id kp) ->
  publicKeysByID self !! keypair_id kp = Some (publicKey kp)
  /\ secretOrKeyProvider decodeWithoutVerification self rawJWT =
       if JS.truthy (publicKey kp) then done (JSObject.str (publicKey kp))
       else throws "JWT was signed with an unknown key id".
Proof.
  intros Hring Hlast Hproto Hne Hd Hk.
  assert (publicKeysByID self !! keypair_id kp = Some (publicKey kp)) as Hlook.
  { rewrite publicKeysByID_foldl, Hring, foldl_app. simpl.
    rewrite lookup_foldl_registerKey_notin by done.
    unfold registerKey at 1. unfold JSObject.set.
    rewrite bool_decide_eq_false_2 by done. apply lookup_insert_eq. }
  split; [done|]. unfold secretOrKeyProvider. rewrite Hd, Hk. cbv zeta.
  cbn [JS.truthy_opt default from_option id].
  destruct (keypair_id kp) eqn:Hid; [done|]. cbn [JS.truthy negb].
  unfold JSObject.get. rewrite Hlook. cbn [JSObject.truthy].
  by destruct (JS.truthy (publicKey kp)).
Qed.

Lemma publicKeysByID_last_wins_witness :
  publicKeysByID Sample.rotated !! "k2" = Some "OLD KEY 2"
  /\ secretOrKeyProvider (Sample.decodeAs (Some "k2")) Sample.rotated "jwt" =
       done (JSObject.str "OLD KEY 2").
Proof.
  apply (publicKeysByID_last_wins (Sample.decodeAs (Some "k2")) Sample.rotated
           "jwt" {| kid := Some "k2" |}
           [ {| keypair_id := "k2"; publicKey := "PUBLIC KEY 2" |};
             {| keypair_id := "k1"; publicKey := "PUBLIC KEY 1" |} ]
           {| keypair_id := "k2"; publicKey := "OLD KEY 2" |} []).
  - reflexivity.
  - simpl. apply not_elem_of_nil.
  - discriminate.
  - discriminate.
  - reflexivity.
  - reflexivity.
Defined.

(** X18: a key pair whose id is [__proto__] never enters the dictionary:
    whatever the ring, a token naming [__proto__] is not refused and
    [done] receives the prototype object, not a public key. *)
Theorem proto_key_never_registered
    (decodeWithoutVerification : string -> string + JwtHeader)
    self rawJWT header :
  publicKeysByID self !! "__proto__" = None
  /\ (decodeWithoutVerification rawJWT = inr header ->
      kid header = Some "__proto__" ->
      secretOrKeyProvider decodeWithoutVerification self rawJWT =
        done (JSObject.inherited "__proto__")).
Proof.
  assert (publicKeysByID self !! "__proto__" = None) as Hlook.
  { rewrite publicKeysByID_foldl, lookup_proto_foldl_registerKey.
    apply lookup_empty. }
  split; [done|]. intros Hd Hk. unfold secretOrKeyProvider.
  rewrite Hd, Hk. cbv zeta. cbn [JS.truthy_opt default from_option id JS.truthy negb].
  unfold JSObject.get. rewrite Hlook. reflexivity.
Qed.

Lemma proto_key_never_registered_witness :
  secretOrKeyProvider (Sample.decodeAs (Some "__proto__")) Sample.self "jwt" =
    done (JSObject.inherited "__proto__").
Proof.
  apply (proj2 (proto_key_never_registered (Sample.decodeAs (Some "__proto__"))
                  Sample.self "jwt" {| kid := Some "__proto__" |}));
    reflexivity.
Defined.

(** ** The session cookie *)

Section Cookies.

Lemma contains_app c (a b : string) :
  JSText.contains c (a +:+ b) = JSText.contains c a || JSText.contains c b.
Proof.
  induction a as [|d a IH]; simpl; [done|]. by rewrite IH, orb_assoc.
Qed.

Lemma append_regroup (a b c : string) : a +:+ (b +:+ c) = (a +:+ b) +:+ c.
Proof.
  induction a as [|d a IH]; [done|].
  change (String d (a +:+ (b +:+ c)) = String d ((a +:+ b) +:+ c)).
  by rewrite IH.
Qed.

Lemma split_char_nonempty sep (s : string) : JSText.split_char sep s <> [].
Proof.
  destruct s as [|c s]; simpl; [done|].
  destruct (JSText.split_char sep s); [done|]. by destruct (Ascii.eqb c sep).
Qed.

Lemma split_char_no_sep sep (s : string) :
  JSText.contains sep s = false -> JSText.split_char sep s = [s].
Proof.
  induction s as [|c s IH]; simpl; [done|].
  intros [Hc Hs]%orb_false_iff. by rewrite (IH Hs), Hc.
Qed.

Lemma split_char_app sep (s r : string) :
  JSText.contains sep s = false ->
  JSText.split_char sep (s +:+ String sep r) = s :: JSText.split_char sep r.
Proof.
  induction s as [|c s IH]; simpl.
  - intros _. rewrite Ascii.eqb_refl.
    destruct (JSText.split_char sep r) eqn:Hr; [|done].
    by apply split_char_nonempty in Hr.
  - intros [Hc Hs]%orb_false_iff. by rewrite (IH Hs), Hc.
Qed.

Lemma split_semicolon_space_nonempty (s : string) :
  JSText.split_semicolon_space s <> [].
Proof.
  destruct s as [|c [|c' s]]; [done | done |].
  simpl. destruct (_ && _); [done|]. by case_match.
Qed.

Lemma split_semicolon_space_other c (s : string) :
  Ascii.eqb c ";" = false ->
  JSText.split_semicolon_space (String c s) =
    match JSText.split_semicolon_space s with
    | [] => [String c EmptyString]
    | p :: ps => String c p :: ps
    end.
Proof. intros Hc. destruct s as [|c' s]; simpl; by rewrite ?Hc. Qed.

Lemma split_semicolon_space_entry (e : string) :
  JSText.contains ";" e = false -> JSText.split_semicolon_space e = [e].
Proof.
  induction e as [|c e IH]; [done|]. simpl JSText.contains.
  intros [Hc He]%orb_false_iff.
  by rewrite split_semicolon_space_other, (IH He).
Qed.

Lemma split_semicolon_space_app (e r : string) :
  JSText.contains ";" e = false ->
  JSText.split_semicolon_space (e +:+ "; " +:+ r) =
    e :: JSText.split_semicolon_space r.
Proof.
  induction e as [|c e IH]; [done|]. simpl JSText.contains.
  intros [Hc He]%orb_false_iff.
  change (String c e +:+ "; " +:+ r) with (String c (e +:+ "; " +:+ r)).
  by rewrite split_semicolon_space_other, (IH He).
Qed.

Lemma or_else_empty (h : string) : JS.or_else (Some h) EmptyString = h.
Proof. by destruct h. Qed.

Lemma split_cookieHeaderOf (cookies : list (string * string)) :
  cookies <> [] ->
  Forall (fun kv => cookieText kv.1 /\ cookieText kv.2) cookies ->
  JSText.split_char "=" <$>
    JSText.split_semicolon_space (cookieHeaderOf cookies) =
  (fun kv => [kv.1; kv.2]) <$> cookies.
Proof.
  induction cookies as [|[k v] l IH]; [done|]. intros _ Hall.
  apply Forall_cons in Hall as [[[Hk1 Hk2] [Hv1 Hv2]] Hl].
  cbn [fst snd] in Hk1, Hk2, Hv1, Hv2.
  assert (JSText.split_char "=" (k +:+ "=" +:+ v) = [k; v]) as Hpair.
  { change (k +:+ "=" +:+ v) with (k +:+ String "=" v).
    by rewrite split_char_app, split_char_no_sep. }
  assert (JSText.contains ";" (k +:+ "=" +:+ v) = false) as Hentry.
  { by rewrite !contains_app, Hk1, Hv1. }
  rewrite fmap_cons. cbn [fst snd].
  destruct l as [|kv l].
  - change (cookieHeaderOf [(k, v)]) with (k +:+ "=" +:+ v).
    rewrite split_semicolon_space_entry by done.
    by rewrite fmap_cons, Hpair.
  - rewrite <- IH by done.
    change (cookieHeaderOf ((k, v) :: kv :: l))
      with (k +:+ "=" +:+ v +:+ "; " +:+ cookieHeaderOf (kv :: l)).
    rewrite (append_regroup "=" v), (append_regroup k ("=" +:+ v)).
    rewrite split_semicolon_space_app by done.
    by rewrite fmap_cons, Hpair.
Qed.

Lemma parseCookieHeader_cookieHeaderOf (cookies : list (string * string)) :
  cookies <> [] ->
  Forall (fun kv => cookieText kv.1 /\ cookieText kv.2) cookies ->
  parseCookieHeader (cookieHeaderOf cookies) = foldl storeCookie ∅ cookies.
Proof.
  intros Hne Hall. unfold parseCookieHeader.
  rewrite split_cookieHeaderOf by done.
  generalize (∅ : gmap string (option string)).
  clear. induction cookies as [|kv l IH]; intros m; [done|].
  simpl. apply IH.
Qed.

Lemma lookup_storeCookie_last (cookies : list (string * string)) name :
  name <> "__proto__" ->
  foldl storeCookie ∅ cookies !! name = Some <$> lastCookie name cookies.
Proof.
  intros Hname. unfold lastCookie.
  induction cookies as [|[k v] l IH] using rev_ind; [done|].
  rewrite foldl_snoc, reverse_snoc. cbn [List.find fst snd].
  unfold storeCookie at 1. unfold JSDict.set. cbn [fst snd].
  destruct (String.eqb_spec k name) as [->|Hne].
  - by rewrite bool_decide_eq_false_2, lookup_insert_eq.
  - case_bool_decide; [done|]. by rewrite lookup_insert_ne.
Qed.

End Cookies.

(** X19: for a [Cookie] header that lists cookies whose names and values
    hold neither a semicolon nor an equals sign, [jwtFromRequest] yields
    the value of the last cookie that carries the configured name, and
    [undefined] when none does (the name not being one of the properties
    of [Object.prototype]). *)
Theorem jwtFromRequest_round_trip
    (getJWTCookieName : Config -> string) self
    (cookies : list (string * string)) :
  Forall (fun kv => cookieText kv.1 /\ cookieText kv.2) cookies ->
  getJWTCookieName (config self) ∉ JSObject.prototype_names ->
  jwtFromRequest getJWTCookieName self (Some (cookieHeaderOf cookies)) =
    match lastCookie (getJWTCookieName (config self)) cookies with
    | Some token => JSObject.str token
    | None => JSObject.undefined
    end.
Proof.
  intros Hall Hname. unfold jwtFromRequest. cbv zeta.
  rewrite or_else_empty. unfold JSDict.get.
  destruct (decide (cookies = [])) as [->|Hne].
  - change (parseCookieHeader (cookieHeaderOf []))
      with (JSDict.set ∅ EmptyString None).
    unfold JSDict.set. rewrite bool_decide_eq_false_2 by done.
    destruct (decide (getJWTCookieName (config self) = EmptyString)) as [->|Hn].
    + by rewrite lookup_insert_eq.
    + rewrite lookup_insert_ne, lookup_empty by done.
      by rewrite bool_decide_eq_false_2.
  - rewrite parseCookieHeader_cookieHeaderOf by done.
    rewrite lookup_storeCookie_last.
    + destruct (lastCookie _ cookies); [done|]. simpl.
      by rewrite bool_decide_eq_false_2.
    + intros Hp. apply Hname. rewrite Hp.
      apply (bool_decide_unpack _). vm_compute. exact I.
Qed.

Lemma jwtFromRequest_round_trip_witness :
  jwtFromRequest sampleCookieName Sample.self
    (Some "theme=dark; _gitpod_jwt_=old; lang=en; _gitpod_jwt_=eyJhbGciOi") =
    JSObject.str "eyJhbGciOi".
Proof.
  apply (jwtFromRequest_round_trip sampleCookieName Sample.self
           [("theme", "dark"); ("_gitpod_jwt_", "old"); ("lang", "en");
            ("_gitpod_jwt_", "eyJhbGciOi")]).
  - repeat (apply Forall_cons; split; [by repeat split|]). apply Forall_nil_2.
  - apply (bool_decide_unpack _). vm_compute. exact I.
Defined.

(** X20: a request without [Cookie] header, or with an empty one,
    carries no token: the result is [undefined], unless the configured
    cookie name is itself a property name of [Object.prototype]. *)
Theorem jwtFromRequest_no_cookie (getJWTCookieName : Config -> string) self :
  let name := getJWTCookieName (config self) in
  let bare :=
    if bool_decide (name ∈ JSObject.prototype_names)
    then JSObject.inherited name else JSObject.undefined in
  jwtFromRequest getJWTCookieName self None = bare
  /\ jwtFromRequest getJWTCookieName self (Some EmptyString) = bare.
Proof.
  intros name bare.
  assert (JSDict.get (parseCookieHeader EmptyString) name = bare) as H.
  { change (parseCookieHeader EmptyString)
      with (JSDict.set ∅ EmptyString None).
    unfold JSDict.get, JSDict.set. rewrite bool_decide_eq_false_2 by done.
    destruct (decide (name = EmptyString)) as [Hn|Hn].
    - rewrite Hn, lookup_insert_eq. unfold bare. rewrite Hn.
      rewrite bool_decide_eq_false_2; [done|].
      apply (bool_decide_unpack _). vm_compute. exact I.
    - by rewrite lookup_insert_ne, lookup_empty. }
  by split.
Qed.

(** X21: the value of a cookie is cut at its first equals sign: for the
    header [name=v1=v2] the token is [v1]. *)
Theorem jwtFromRequest_value_cut
    (getJWTCookieName : Config -> string) self (v1 v2 : string) :
  let name := getJWTCookieName (config self) in
  cookieText name -> name <> EmptyString -> name <> "__proto__" ->
  cookieText v1 -> JSText.contains ";" v2 = false ->
  jwtFromRequest getJWTCookieName self
    (Some (name +:+ "=" +:+ v1 +:+ "=" +:+ v2)) = JSObject.str v1.
Proof.
  intros name [Hn1 Hn2] Hne Hproto [Hv1 Hv2] Hv.
  unfold jwtFromRequest. cbv zeta. fold name. rewrite or_else_empty.
  unfold parseCookieHeader.
  rewrite split_semicolon_space_entry
    by (rewrite !contains_app, Hn1, Hv1, Hv; done).
  change (name +:+ "=" +:+ v1 +:+ "=" +:+ v2)
    with (name +:+ String "=" (v1 +:+ String "=" v2)).
  rewrite fmap_cons, !split_char_app by done.
  simpl foldl. unfold JSDict.get, JSDict.set.
  by rewrite bool_decide_eq_false_2, lookup_insert_eq.
Qed.

Lemma jwtFromRequest_value_cut_witness :
  jwtFromRequest sampleCookieName Sample.self
    (Some "_gitpod_jwt_=eyJhbGciOi=padding") = JSObject.str "eyJhbGciOi".
Proof.
  apply (jwtFromRequest_value_cut sampleCookieName Sample.self
           "eyJhbGciOi" "padding");
    first [by split | discriminate | reflexivity].
Defined.

(** ** The passport callbacks *)

(** X22: [deserializeUser] calls [done] exactly once, whatever the user
    store and the after-load hook do; it hands over a user exactly when
    the user is found and the hook resolves, and the user handed over is
    the one the hook resolves to. *)
Theorem deserializeUser_done_once (loading : UserLoading) (id : string) :
  length (doneCalls (deserializeUser loading id)) = 1%nat
  /\ (forall u,
        pe_done None (arg_user u) ∈ deserializeUser loading id <->
        exists found,
          findUserById loading id = resolved (Some found)
          /\ onAfterUserLoad loading found = resolved u).
Proof.
  unfold deserializeUser.
  destruct (findUserById loading id) as [[found|]|err]; simpl.
  - destruct (onAfterUserLoad loading found) as [u'|err] eqn:Hhook; simpl.
    + split; [done|]. intros u. split.
      * intros Hin. repeat (apply elem_of_cons in Hin as [Hin|Hin];
                            [try discriminate|]).
        -- injection Hin as ->. by exists found.
        -- by apply elem_of_nil in Hin.
      * intros (f & [= <-] & Hf). rewrite Hhook in Hf. injection Hf as ->.
        do 2 apply list_elem_of_further. apply list_elem_of_here.
    + split; [done|]. intros u. split.
      * intros Hin. repeat (apply elem_of_cons in Hin as [Hin|Hin];
                            [discriminate|]).
        by apply elem_of_nil in Hin.
      * intros (f & [= <-] & Hf). congruence.
  - split; [done|]. intros u. split.
    + intros Hin. repeat (apply elem_of_cons in Hin as [Hin|Hin];
                          [discriminate|]).
      by apply elem_of_nil in Hin.
    + by intros (f & Hf & _).
  - split; [done|]. intros u. split.
    + intros Hin. repeat (apply elem_of_cons in Hin as [Hin|Hin];
                          [discriminate|]).
      by apply elem_of_nil in Hin.
    + by intros (f & Hf & _).
Qed.

(** X23: the verify callback of the JWT strategy calls [done] at most
    once; it calls the after-load hook only for a user it found; the
    user it hands over is the user as found, not what the hook resolves
    to; and when the hook rejects, [done] is not called at all. *)
Theorem jwtVerify_done (loading : UserLoading) (sub : string) :
  (length (doneCalls (jwtVerify loading sub)) <= 1)%nat
  /\ (forall u,
        pe_done None (arg_user u) ∈ jwtVerify loading sub <->
        findUserById loading sub = resolved (Some u)
        /\ exists u', onAfterUserLoad loading u = resolved u')
  /\ (forall u, pe_onAfterUserLoad u ∈ jwtVerify loading sub ->
        findUserById loading sub = resolved (Some u))
  /\ (forall u err,
        findUserById loading sub = resolved (Some u) ->
        onAfterUserLoad loading u = rejected err ->
        doneCalls (jwtVerify loading sub) = []).
Proof.
  unfold jwtVerify.
  destruct (findUserById loading sub) as [[found|]|err]; simpl.
  - destruct (onAfterUserLoad loading found) as [u'|err] eqn:Hhook; simpl.
    + split_and!; [lia | | |].
      * intros u. split.
        -- intros Hin. repeat (apply elem_of_cons in Hin as [Hin|Hin];
                               [try discriminate|]).
           ++ injection Hin as ->. split; [done|]. by exists u'.
           ++ by apply elem_of_nil in Hin.
        -- intros [[= <-] _].
           do 2 apply list_elem_of_further. apply list_elem_of_here.
      * intros u Hin. repeat (apply elem_of_cons in Hin as [Hin|Hin];
                              [try discriminate|]).
        -- by injection Hin as ->.
        -- by apply elem_of_nil in Hin.
      * intros u err [= <-] Hrej. congruence.
    + split_and!; [lia | | |].
      * intros u. split.
        -- intros Hin. repeat (apply elem_of_cons in Hin as [Hin|Hin];
                               [discriminate|]).
           by apply elem_of_nil in Hin.
        -- intros [[= <-] [u' Hu']]. congruence.
      * intros u Hin. repeat (apply elem_of_cons in Hin as [Hin|Hin];
                              [try discriminate|]).
        -- by injection Hin as ->.
        -- by apply elem_of_nil in Hin.
      * done.
  - split_and!; [lia | | |]; try done.
    + intros u. split; [|by intros [? _]].
      intros Hin. repeat (apply elem_of_cons in Hin as [Hin|Hin];
                          [discriminate|]).
      by apply elem_of_nil in Hin.
    + intros u Hin. repeat (apply elem_of_cons in Hin as [Hin|Hin];
                            [discriminate|]).
      by apply elem_of_nil in Hin.
  - split_and!; [lia | | |]; try done.
    + intros u. split; [|by intros [? _]].
      intros Hin. repeat (apply elem_of_cons in Hin as [Hin|Hin];
                          [discriminate|]).
      by apply elem_of_nil in Hin.
    + intros u Hin. repeat (apply elem_of_cons in Hin as [Hin|Hin];
                            [discriminate|]).
      by apply elem_of_nil in Hin.
Qed.

Lemma jwtVerify_done_witness :
  pe_done None (arg_user {| user_id := "bob" |}) ∈ jwtVerify sampleLoading "bob".
Proof.
  apply (proj1 (proj2 (jwtVerify_done sampleLoading "bob"))).
  split; [reflexivity|]. eexists. reflexivity.
Defined.

(** X24: what [serializeUser] hands over for a user is the user's id,
    and [deserializeUser] on that id hands back the stored user with this
    id as the after-load hook returns it. *)
Theorem serialize_deserialize (loading : UserLoading) (u u' : User) :
  findUserById loading (user_id u) = resolved (Some u) ->
  onAfterUserLoad loading u = resolved u' ->
  exists id,
    serializeUser (Some u) = [pe_done None (arg_id id)]
    /\ doneCalls (deserializeUser loading id) = [pe_done None (arg_user u')].
Proof.
  intros Hfind Hhook. exists (user_id u). split; [done|].
  unfold deserializeUser. by rewrite Hfind, Hhook.
Qed.

Lemma serialize_deserialize_witness :
  exists id,
    serializeUser (Some {| user_id := "bob" |}) = [pe_done None (arg_id id)]
    /\ doneCalls (deserializeUser sampleLoading id) =
         [pe_done None (arg_user {| user_id := "bob@migrated" |})].
Proof.
  apply (serialize_deserialize sampleLoading {| user_id := "bob" |});
    reflexivity.
Defined.

(** ** Routing of provider callbacks *)

Section Routing.

Lemma callbackLoop_first url (l1 : list HostContext) hc l2 :
  Forall (fun hc' =>
            String.prefix (authCallbackPath (authProvider hc')) url = false) l1 ->
  String.prefix (authCallbackPath (authProvider hc)) url = true ->
  callbackLoop url (l1 ++ hc :: l2) =
    [route_event (ev_log Info
       ("Auth Provider Callback. Path: "
        +:+ authCallbackPath (authProvider hc)));
     route_callback (authProvider hc)].
Proof.
  intros Hl1 Hhc. induction Hl1 as [|hc' l1 Hhc' _ IH]; simpl.
  - by rewrite Hhc.
  - by rewrite Hhc'.
Qed.

Lemma callbackLoop_none url (l : list HostContext) :
  Forall (fun hc =>
            String.prefix (authCallbackPath (authProvider hc)) url = false) l ->
  callbackLoop url l = [route_event (ev_next None)].
Proof.
  intros Hl. induction Hl as [|hc l Hhc _ IH]; simpl; [done|]. by rewrite Hhc.
Qed.

Lemma callbackLoop_outcome url (l : list HostContext) :
  routeOutcome (callbackLoop url l) = [route_event (ev_next None)]
  \/ exists hc, hc ∈ l
       /\ String.prefix (authCallbackPath (authProvider hc)) url = true
       /\ routeOutcome (callbackLoop url l) = [route_callback (authProvider hc)].
Proof.
  induction l as [|hc l IH]; simpl; [by left|].
  destruct (String.prefix _ url) eqn:Hp.
  - right. exists hc. split; [by left|]. done.
  - destruct IH as [IH|(hc' & Hin & Hp' & IH)]; [by left|].
    right. exists hc'. split; [by right|]. done.
Qed.

End Routing.

(** X25: for a URL under [/auth/], the first provider in registry order
    whose callback path starts the URL receives the callback, and no
    provider after it is tried; when no path starts the URL, the request
    is passed on with [next]. *)
Theorem authCallbackHandler_first_match self url l1 hc l2 :
  String.prefix "/auth/" url = true ->
  Forall (fun hc' =>
            String.prefix (authCallbackPath (authProvider hc')) url = false) l1 ->
  (hcp_getAll (hostContextProvider self) = l1 ++ hc :: l2 ->
   String.prefix (authCallbackPath (authProvider hc)) url = true ->
   authCallbackHandler self url =
     [route_event ev_hostContextProvider_getAll;
      route_event (ev_log Info
        ("Auth Provider Callback. Path: "
         +:+ authCallbackPath (authProvider hc)));
      route_callback (authProvider hc)])
  /\ (hcp_getAll (hostContextProvider self) = l1 ->
      authCallbackHandler self url =
        [route_event ev_hostContextProvider_getAll;
         route_event (ev_next None)]).
Proof.
  intros Hauth Hl1. unfold authCallbackHandler. rewrite Hauth. split.
  - intros -> Hhc. by rewrite callbackLoop_first.
  - intros ->. by rewrite callbackLoop_none.
Qed.

Lemma authCallbackHandler_first_match_witness :
  authCallbackHandler Sample.self "/auth/gitlab.example/callback?code=42" =
    [route_event ev_hostContextProvider_getAll;
     route_event (ev_log Info
       "Auth Provider Callback. Path: /auth/gitlab.example/callback");
     route_callback Sample.gitlab].
Proof.
  apply (proj1 (authCallbackHandler_first_match Sample.self
                  "/auth/gitlab.example/callback?code=42"
                  [ {| authProvider := Sample.github |} ]
                  {| authProvider := Sample.gitlab |}
                  [ {| authProvider := Sample.gitea |} ]
                  eq_refl
                  ltac:(repeat constructor)));
    reflexivity.
Defined.

(** X26: every run of the callback routing ends in exactly one of two
    ways, [next] or the callback of one provider strategy; a callback
    only goes to a registered provider whose callback path starts the
    URL, and only for a URL under [/auth/]; for any other URL the
    registry is not even read. *)
Theorem authCallbackHandler_outcome self url :
  (routeOutcome (authCallbackHandler self url) = [route_event (ev_next None)]
   \/ exists hc,
        hc ∈ hcp_getAll (hostContextProvider self)
        /\ String.prefix "/auth/" url = true
        /\ String.prefix (authCallbackPath (authProvider hc)) url = true
        /\ routeOutcome (authCallbackHandler self url) =
             [route_callback (authProvider hc)])
  /\ (String.prefix "/auth/" url = false ->
      authCallbackHandler self url = [route_event (ev_next None)]).
Proof.
  unfold authCallbackHandler.
  destruct (String.prefix "/auth/" url) eqn:Hauth; [|by split; [left|]].
  split; [|done].
  change (routeOutcome (route_event ev_hostContextProvider_getAll ::
            callbackLoop url (hcp_getAll (hostContextProvider self))))
    with (routeOutcome (callbackLoop url (hcp_getAll (hostContextProvider self)))).
  destruct (callbackLoop_outcome url (hcp_getAll (hostContextProvider self)))
    as [Hnext|(hc & Hin & Hp & Hcb)]; [by left|].
  right. by exists hc.
Qed.

Lemma authCallbackHandler_outcome_witness :
  authCallbackHandler Sample.self "/api/gitpod" = [route_event (ev_next None)].
Proof.
  apply (proj2 (authCallbackHandler_outcome Sample.self "/api/gitpod")).
  reflexivity.
Defined.
